(** * privategpt: ingestion pipeline and maker-checker approval

    A shallow embedding of [ingest.py] (loader registry, batch loading,
    vector-store synchronisation, the directory prompt) and of the
    [/verify], [/upload], [/update] and [/department_update] routes of
    [private_gpt/users/api/v1/routers/documents.py], with the properties
    the specification states about them and further properties read off
    the code.

    Python values are modelled as follows: [str] is [string], a [dict] that
    is iterated in insertion order is an association list, a [dict] that is
    only looked up is a [gmap], a call that may raise returns an [outcome].
    Third-party code (langchain loaders and splitter, glob, the Chroma
    store) is not part of the repository: it appears as the fields of a
    [World] record, and what a theorem needs from it is an explicit
    hypothesis. *)

From Stdlib Require Import ZArith Ascii String Sorted.
From stdpp Require Import base option list strings gmap.

Local Open Scope string_scope.
Local Open Scope list_scope.

(** ** Python outcomes *)

Module Py.

(** The class of an exception, [type(e)]: one of the classes that the
    two files raise or catch by name, a class that derives from
    [ValueError] (as [UnicodeDecodeError] does), or any other class, with
    its name. *)
Inductive exn_class :=
| ValueError
| ValueErrorSubclass (name : string)
| IndexError
| KeyError
| FileNotFoundError
| OtherError (name : string).

(** [isinstance(e, ValueError)], on the class of [e]: what
    [except ValueError] catches. *)
Definition is_ValueError (cls : exn_class) : bool :=
  match cls with
  | ValueError | ValueErrorSubclass _ => true
  | _ => false
  end.

(** An exception instance: its class and [str(e)]. *)
Record exn := Exn { exn_cls : exn_class; exn_str : string }.

(** What running a piece of Python code ends in: a value, an exception
    that propagates, or [exit(code)] (SystemExit, which no
    [except Exception] clause catches). *)
Inductive outcome (A : Type) :=
| Return (a : A)
| Raise (e : exn)
| Exit (code : Z).
Arguments Return {A} a.
Arguments Raise {A} e.
Arguments Exit {A} code.

Definition bind {A B} (m : outcome A) (k : A → outcome B) : outcome B :=
  match m with
  | Return a => k a
  | Raise e => Raise e
  | Exit c => Exit c
  end.

(** Runs the calls of a list from left to right; the first one that does
    not return ends the whole. *)
Fixpoint traverse {A B} (f : A → outcome B) (l : list A) : outcome (list B) :=
  match l with
  | [] => Return []
  | x :: l' =>
      bind (f x) (λ y, bind (traverse f l') (λ ys, Return (y :: ys)))
  end.

Definition returns {A} (m : outcome A) : bool :=
  match m with Return _ => true | _ => false end.

#[global] Instance exn_class_eq_dec : EqDecision exn_class.
Proof. solve_decision. Defined.
#[global] Instance exn_eq_dec : EqDecision exn.
Proof. solve_decision. Defined.

End Py.

Import Py.

Notation "x ←! m ; k" := (Py.bind m (λ x, k))
  (at level 100, m at next level, right associativity,
   format "x  ←!  m ;  '/' k").

(** ** ingest.py *)

Module Ingest.

(** [langchain.docstore.document.Document]. *)
Record Document := Doc {
  page_content : string;
  metadata : gmap string string
}.

#[global] Instance Document_eq_dec : EqDecision Document.
Proof. solve_decision. Defined.

Definition chunk_size : nat := 500.
Definition chunk_overlap : nat := 50.

(** The loader classes imported from langchain, and [MyElmLoader]. *)
Inductive loader_class :=
| CSVLoader
| EverNoteLoader
| PDFMinerLoader
| TextLoader
| UnstructuredEmailLoader
| UnstructuredEPubLoader
| UnstructuredHTMLLoader
| UnstructuredMarkdownLoader
| UnstructuredODTLoader
| UnstructuredPowerPointLoader
| UnstructuredWordDocumentLoader
| MyElmLoader.

#[global] Instance loader_class_eq_dec : EqDecision loader_class.
Proof. solve_decision. Defined.

(** Keyword arguments of a loader. *)
Definition kwargs := list (string * string).

(** Everything outside the repository that [ingest.py] calls. *)
Record World := {
  (** [os.path.exists] *)
  path_exists : string → bool;
  (** [glob.glob(pattern, recursive=...)] *)
  glob : bool → string → list string;
  (** [cls(file_path, **kwargs).load()] for a langchain class *)
  library_load : loader_class → string → kwargs → outcome (list Document);
  (** [RecursiveCharacterTextSplitter(chunk_size, chunk_overlap)
      .split_documents] *)
  split_documents : nat → nat → list Document → list Document;
  (** the order in which the pool's workers finish, as a sequence of
      choices among the tasks still running *)
  completion : list nat;
  (** [raise cls(message)] for an exception class [cls], as the exception
      that it lets out: the instance that [cls] makes of one string (a
      [KeyError] shows it quoted), or the [TypeError] of the call when
      [cls] is not made from one string (as [UnicodeDecodeError], which
      takes five arguments) *)
  new_exception : exn_class → string → exn
}.

(** The module-level directories, set from the environment. *)
Record Config := {
  persist_directory : string;
  source_directory : string
}.

(** *** MyElmLoader *)

Definition contains (needle s : string) : bool :=
  bool_decide (is_Some (String.index 0 needle s)).

Definition set_kwarg (k v : string) (kw : kwargs) : kwargs :=
  (k, v) :: filter (λ e, e.1 ≠ k) kw.

(** [except Exception as e: raise type(e)(f"{self.file_path}: {e}") from e] *)
Definition with_file_path {A} (w : World) (file_path : string)
    (m : outcome A) : outcome A :=
  match m with
  | Raise e =>
      Raise (new_exception w (exn_cls e) (file_path +:+ ": " +:+ exn_str e))
  | _ => m
  end.

(** The inner [try] of [MyElmLoader.load]: [except ValueError as e] with
    its test of [str(e)]. *)
Definition plain_text_fallback (w : World) (file_path : string) (kw : kwargs)
  : outcome (list Document) :=
  match library_load w UnstructuredEmailLoader file_path kw with
  | Raise e =>
      if is_ValueError (exn_cls e) then
        if contains "text/html content not found in email" (exn_str e)
        then library_load w UnstructuredEmailLoader file_path
               (set_kwarg "content_source" "text/plain" kw)
        else Raise e
      else Raise e
  | r => r
  end.

Definition MyElmLoader_load (w : World) (file_path : string) (kw : kwargs)
  : outcome (list Document) :=
  with_file_path w file_path (plain_text_fallback w file_path kw).

(** [loader_class(file_path, **loader_args).load()] *)
Definition load (w : World) (cls : loader_class) (file_path : string)
    (kw : kwargs) : outcome (list Document) :=
  match cls with
  | MyElmLoader => MyElmLoader_load w file_path kw
  | _ => library_load w cls file_path kw
  end.

(** *** LOADER_MAPPING *)

Definition LOADER_MAPPING : list (string * (loader_class * kwargs)) :=
  [ (".csv", (CSVLoader, []));
    (".doc", (UnstructuredWordDocumentLoader, []));
    (".docx", (UnstructuredWordDocumentLoader, []));
    (".enex", (EverNoteLoader, []));
    (".eml", (MyElmLoader, []));
    (".epub", (UnstructuredEPubLoader, []));
    (".html", (UnstructuredHTMLLoader, []));
    (".md", (UnstructuredMarkdownLoader, []));
    (".odt", (UnstructuredODTLoader, []));
    (".pdf", (PDFMinerLoader, []));
    (".ppt", (UnstructuredPowerPointLoader, []));
    (".pptx", (UnstructuredPowerPointLoader, []));
    (".txt", (TextLoader, [("encoding", "utf8")])) ].

(** [LOADER_MAPPING[ext]], [None] when [ext not in LOADER_MAPPING]. *)
Fixpoint dict_get {V} (d : list (string * V)) (k : string) : option V :=
  match d with
  | [] => None
  | (k', v) :: d' => if decide (k' = k) then Some v else dict_get d' k
  end.

(** *** load_single_document *)

(** The part of [s] after its last ["."], if it has one. *)
Fixpoint after_last_dot (s : string) : option string :=
  match s with
  | EmptyString => None
  | String c r =>
      match after_last_dot r with
      | Some t => Some t
      | None => if Ascii.eqb c "." then Some r else None
      end
  end.

(** [s.rsplit(".", 1)[-1]] *)
Definition rsplit_dot_last (s : string) : string :=
  default s (after_last_dot s).

Definition extension (file_path : string) : string :=
  "." +:+ rsplit_dot_last file_path.

Definition unsupported (ext : string) : exn :=
  Exn ValueError ("Unsupported file extension '" +:+ ext +:+ "'").

Definition is_upper (c : ascii) : bool :=
  Nat.leb 65 (nat_of_ascii c) && Nat.leb (nat_of_ascii c) 90.

(** [s] has an upper-case ASCII letter. *)
Fixpoint has_upper (s : string) : bool :=
  match s with
  | EmptyString => false
  | String c r => is_upper c || has_upper r
  end.

(** [some_list[0]] *)
Definition first {A} (l : list A) : outcome A :=
  match l with
  | x :: _ => Return x
  | [] => Raise (Exn IndexError "list index out of range")
  end.

Definition load_single_document (w : World) (file_path : string)
  : outcome Document :=
  let ext := extension file_path in
  match dict_get LOADER_MAPPING ext with
  | Some (loader_class, loader_args) =>
      docs ←! load w loader_class file_path loader_args;
      first docs
  | None => Raise (unsupported ext)
  end.

(** *** load_documents *)

(** [os.path.join(a, b)] (posixpath). *)
Definition path_join (a b : string) : string :=
  if String.prefix "/" b then b
  else if bool_decide (a = "") || String.prefix "/" (String.rev a)
       then a +:+ b
       else a +:+ "/" +:+ b.

(** The order in which [tasks] finish: each choice picks, among the tasks
    not yet finished, the next one to finish; when the choices run out
    the rest finish in submission order. Every task finishes once. *)
Fixpoint schedule {A} (choices : list nat) (tasks : list A) : list A :=
  match choices with
  | [] => tasks
  | c :: cs =>
      let i := c `mod` length tasks in
      match tasks !! i with
      | Some x => x :: schedule cs (delete i tasks)
      | None => tasks
      end
  end.

(** [for doc in pool.imap_unordered(f, tasks): results.append(doc)]:
    results arrive in completion order, and the exception of a task is
    raised in the parent when its result is reached. *)
Definition imap_unordered {A B} (w : World) (f : A → outcome B)
    (tasks : list A) : outcome (list B) :=
  traverse f (schedule (completion w) tasks).

Definition all_files (w : World) (source_dir : string) : list string :=
  flat_map (λ entry, glob w true (path_join source_dir ("**/*" +:+ entry.1)))
           LOADER_MAPPING.

Definition filtered_files (w : World) (source_dir : string)
    (ignored_files : list string) : list string :=
  filter (λ file_path, file_path ∉ ignored_files) (all_files w source_dir).

Definition load_documents (w : World) (source_dir : string)
    (ignored_files : list string) : outcome (list Document) :=
  imap_unordered w (load_single_document w)
    (filtered_files w source_dir ignored_files).

(** *** process_documents *)

Definition process_documents (w : World) (cfg : Config)
    (ignored_files : list string) : outcome (list Document) :=
  documents ←! load_documents w (source_directory cfg) ignored_files;
  match documents with
  | [] => Exit 0
  | _ => Return (split_documents w chunk_size chunk_overlap documents)
  end.

(** *** does_vectorstore_exist *)

Definition does_vectorstore_exist (w : World) (persist_directory : string)
  : bool :=
  if path_exists w (path_join persist_directory "index") then
    if path_exists w (path_join persist_directory "chroma-collections.parquet")
       && path_exists w (path_join persist_directory "chroma-embeddings.parquet")
    then
      let list_index_files :=
        glob w false (path_join persist_directory "index/*.bin")
        ++ glob w false (path_join persist_directory "index/*.pkl") in
      if bool_decide (3 < length list_index_files) then true else false
    else false
  else false.

(** *** main *)

(** [metadata['source']] *)
Definition source_of (d : Document) : outcome string :=
  match metadata d !! "source" with
  | Some s => Return s
  | None => Raise (Exn KeyError "'source'")
  end.

(** [[metadata['source'] for metadata in collection['metadatas']]] *)
Definition sources (collection : list Document) : outcome (list string) :=
  traverse source_of collection.

(** One run of [main] on the store persisted under [persist_directory]
    (the records of the Chroma collection, as their chunk and metadata;
    embedding vectors and ids are left out). Returns the store that
    [db.persist()] writes: [db.add_documents] appends to the collection
    that was opened, [Chroma.from_documents] makes a collection of the
    texts it is given. The calls of [print] are left out. *)
Definition main (w : World) (cfg : Config) (store : list Document)
  : outcome (list Document) :=
  if does_vectorstore_exist w (persist_directory cfg) then
    ignored ←! sources store;
    texts ←! process_documents w cfg ignored;
    Return (store ++ texts)
  else
    texts ←! process_documents w cfg [];
    Return texts.

(** The store on disk after a run: a run that raises or exits before
    [db.persist()] leaves it as it was. *)
Definition persisted_after (run : outcome (list Document))
    (store : list Document) : list Document :=
  match run with
  | Return store' => store'
  | _ => store
  end.

(** The records a run adds to the store: what it passes to
    [db.add_documents] when it gets that far. *)
Definition added_records (w : World) (cfg : Config) (store : list Document)
  : list Document :=
  match sources store with
  | Return ignored =>
      match process_documents w cfg ignored with
      | Return texts => texts
      | _ => []
      end
  | _ => []
  end.

(** *** What the theorems assume of the libraries *)

(** Every langchain loader records the path it was given as the
    ["source"] of the documents it extracts. *)
Definition loaders_stamp_source (w : World) : Prop :=
  ∀ cls file_path kw docs d,
    library_load w cls file_path kw = Return docs →
    d ∈ docs → metadata d !! "source" = Some file_path.

(** The splitter splits each document on its own, *)
Definition splitter_per_document (w : World) : Prop :=
  ∀ size overlap docs,
    split_documents w size overlap docs
    = flat_map (λ d, split_documents w size overlap [d]) docs.

(** and every chunk carries the metadata of the document it is cut
    from. *)
Definition splitter_keeps_metadata (w : World) : Prop :=
  ∀ size overlap d c,
    c ∈ split_documents w size overlap [d] → metadata c = metadata d.

(** Two runs see the same source files, with the same contents, and use
    the same libraries. *)
Definition same_sources (w1 w2 : World) (cfg : Config) : Prop :=
  all_files w1 (source_directory cfg) = all_files w2 (source_directory cfg)
  ∧ (∀ cls file_path kw,
       library_load w1 cls file_path kw = library_load w2 cls file_path kw)
  ∧ (∀ size overlap docs,
       split_documents w1 size overlap docs
       = split_documents w2 size overlap docs).

End Ingest.

(** ** private_gpt/users/api/v1/routers/documents.py: the /verify route *)

Module Documents.

(** [private_gpt.users.models.document.MakerCheckerStatus] *)
Inductive MakerCheckerStatus := PENDING | APPROVED | REJECTED.

#[global] Instance MakerCheckerStatus_eq_dec : EqDecision MakerCheckerStatus.
Proof. solve_decision. Defined.

(** The row of a document in the metadata store, with the columns the
    route reads or writes. *)
Record DocumentRecord := {
  filename : string;
  doc_type_id : nat;
  status : MakerCheckerStatus;
  is_enabled : bool;
  verified_at : option nat;
  verified_by : option nat
}.

#[global] Instance DocumentRecord_eq_dec : EqDecision DocumentRecord.
Proof. solve_decision. Defined.

(** [schemas.DocumentUpdate], the checker's request. *)
Record DocumentUpdate := {
  upd_id : nat;
  upd_status : string;
  upd_is_enabled : bool
}.

(** [schemas.DocumentCheckerUpdate], the fields written on a decision. *)
Record DocumentCheckerUpdate := {
  chk_status : MakerCheckerStatus;
  chk_is_enabled : bool;
  chk_verified_at : nat;
  chk_verified_by : nat
}.

#[global] Instance DocumentCheckerUpdate_eq_dec : EqDecision DocumentCheckerUpdate.
Proof. solve_decision. Defined.

Record HTTPException := { status_code : nat; detail : string }.

#[global] Instance HTTPException_eq_dec : EqDecision HTTPException.
Proof. solve_decision. Defined.

(** What the route answers: nothing ([None]) or what the ingestion or
    OCR service answered, passed on as it is. *)
Inductive Response := NoContent | Passed (body : string).

(** The metadata store, and the files of the quarantine directory, each
    under the path that names it (see [Path] below). *)
Record Store := {
  db : gmap nat DocumentRecord;
  files : gset string
}.

(** The effects of the route, in the order they are attempted. *)
Inductive Event :=
| EvUpdate (id : nat) (obj_in : DocumentCheckerUpdate)
| EvProcessOcr (path : string)
| EvProcessBothOcr (path : string)
| EvIngest (path : string)
| EvRemove (path : string).

#[global] Instance Event_eq_dec : EqDecision Event.
Proof. solve_decision. Defined.

(** An effect on the quarantined file: ingestion, OCR or deletion. *)
Definition file_effect (ev : Event) : bool :=
  match ev with
  | EvUpdate _ _ => false
  | _ => true
  end.

Inductive result (A : Type) :=
| Ok (a : A)
| HTTPError (e : HTTPException)
| Error (e : exn).
Arguments Ok {A} a.
Arguments HTTPError {A} e.
Arguments Error {A} e.

(** A computation on the store that records the effects it attempts. *)
Definition M (A : Type) : Type :=
  Store * list Event → result A * (Store * list Event).

Definition ret {A} (a : A) : M A := λ s, (Ok a, s).

Definition bind {A B} (m : M A) (k : A → M B) : M B :=
  λ s, match m s with
       | (Ok a, s') => k a s'
       | (HTTPError e, s') => (HTTPError e, s')
       | (Error e, s') => (Error e, s')
       end.

Definition raise_http {A} (code : nat) (msg : string) : M A :=
  λ s, (HTTPError {| status_code := code; detail := msg |}, s).

Definition emit (ev : Event) : M unit :=
  λ s, (Ok tt, (s.1, s.2 ++ [ev])).

(** What the route imports and this file does not define. *)
Record Env := {
  UNCHECKED_DIR : string;
  (** [Path(text)], as the path under which the operating system finds
      the file: pathlib reads the text (it drops a component ["."], a
      doubled and a closing slash) and the system resolves what
      pathlib gives it; two texts that name one file have one [Path] *)
  Path : string → string;
  (** [MakerCheckerStatus.X.value] *)
  status_value : MakerCheckerStatus → string;
  (** [private_gpt.server.ingest.ingest_router.ingest] and the two OCR
      entry points: what they answer, and what they leave of the store *)
  ingest : string → Store → result Response * Store;
  process_ocr : string → Store → result Response * Store;
  process_both_ocr : string → Store → result Response * Store
}.

(** Modelled from the spec: [crud.documents.get_by_id] is not among the
    sources; the metadata repository is a record store keyed by id
    ([GetById]). *)
Definition get_by_id (id : nat) : M (option DocumentRecord) :=
  λ s, (Ok (db s.1 !! id), s).

Definition apply_update (obj_in : DocumentCheckerUpdate)
    (d : DocumentRecord) : DocumentRecord :=
  {| filename := filename d;
     doc_type_id := doc_type_id d;
     status := chk_status obj_in;
     is_enabled := chk_is_enabled obj_in;
     verified_at := Some (chk_verified_at obj_in);
     verified_by := Some (chk_verified_by obj_in) |}.

(** Modelled from the spec: [crud.documents.update] is not among the
    sources; it writes the given fields (status, verifier identity,
    verification timestamp, enabled flag) on the record and commits
    ([Update(record, fields)]). *)
Definition update (id : nat) (obj_in : DocumentCheckerUpdate) : M unit :=
  λ s, (Ok tt,
        ({| db := alter (apply_update obj_in) id (db s.1);
            files := files s.1 |},
         s.2 ++ [EvUpdate id obj_in])).

(** A call of one of the imported services on the quarantined file. *)
Definition dispatch (ev : Event)
    (service : Store → result Response * Store) : M Response :=
  λ s, let '(r, store') := service s.1 in (r, (store', s.2 ++ [ev])).

(** [os.remove(path)] *)
Definition os_remove (path : string) : M unit :=
  bind (emit (EvRemove path)) (λ _ s,
    if decide (path ∈ files s.1)
    then (Ok tt, ({| db := db s.1; files := files s.1 ∖ {[path]} |}, s.2))
    else (Error (Exn FileNotFoundError
                   ("[Errno 2] No such file or directory: '" +:+ path +:+ "'")),
          s)).

(** The body of the [try] block of [verify_documents]. *)
Definition verify_documents_try (env : Env) (checker_in : DocumentUpdate)
    (current_user now : nat) : M Response :=
  bind (get_by_id (upd_id checker_in)) (λ document,
  match document with
  | None => raise_http 400 "Document not found!"
  | Some document =>
    let unchecked_path :=
      Path env (UNCHECKED_DIR env +:+ "/" +:+ filename document) in
    if decide (upd_status checker_in = status_value env APPROVED) then
      let checker :=
        {| chk_status := APPROVED;
           chk_is_enabled := upd_is_enabled checker_in;
           chk_verified_at := now;
           chk_verified_by := current_user |} in
      bind (update (upd_id checker_in) checker) (λ _,
      if decide (doc_type_id document = 2) then
        dispatch (EvProcessOcr unchecked_path) (process_ocr env unchecked_path)
      else if decide (doc_type_id document = 3) then
        dispatch (EvProcessBothOcr unchecked_path)
                 (process_both_ocr env unchecked_path)
      else
        dispatch (EvIngest unchecked_path) (ingest env unchecked_path))
    else if decide (upd_status checker_in = status_value env REJECTED) then
      let checker :=
        {| chk_status := REJECTED;
           chk_is_enabled := upd_is_enabled checker_in;
           chk_verified_at := now;
           chk_verified_by := current_user |} in
      bind (update (upd_id checker_in) checker) (λ _,
      bind (os_remove unchecked_path) (λ _,
      ret NoContent))
    else
      raise_http 400 "Cannot change status to PENDING!"
  end).

(** [except HTTPException: raise] and
    [except Exception: raise HTTPException(500, ...)] *)
Definition except_clauses {A} (r : result A) : result A :=
  match r with
  | Error _ =>
      HTTPError {| status_code := 500;
                   detail := "Internal Server Error: Unable to upload file." |}
  | _ => r
  end.

(** One call of the route on [store]: the answer, the store it leaves
    and the effects it attempted, in order. *)
Definition verify_documents (env : Env) (checker_in : DocumentUpdate)
    (current_user now : nat) (store : Store)
  : result Response * (Store * list Event) :=
  let '(r, s) :=
    verify_documents_try env checker_in current_user now (store, []) in
  (except_clauses r, s).

Definition answer {A} (run : result A * (Store * list Event)) : result A :=
  run.1.
Definition store_of {A} (run : result A * (Store * list Event)) : Store :=
  run.2.1.
Definition trace_of {A} (run : result A * (Store * list Event)) : list Event :=
  run.2.2.

(** *** Vocabulary of the statements *)

(** A document that has left [PENDING]. *)
Definition terminal (d : DocumentRecord) : bool :=
  bool_decide (status d ≠ PENDING).

(** Where the upload of [d] is quarantined:
    [Path(f"{UNCHECKED_DIR}/{document.filename}")]. *)
Definition quarantined (env : Env) (d : DocumentRecord) : string :=
  Path env (UNCHECKED_DIR env +:+ "/" +:+ filename d).

(** The fields a decision [st] writes. *)
Definition decision (st : MakerCheckerStatus) (checker_in : DocumentUpdate)
    (current_user now : nat) : DocumentCheckerUpdate :=
  {| chk_status := st;
     chk_is_enabled := upd_is_enabled checker_in;
     chk_verified_at := now;
     chk_verified_by := current_user |}.

(** The store once the decision is written on record [id]. *)
Definition recorded (id : nat) (obj_in : DocumentCheckerUpdate)
    (store : Store) : Store :=
  {| db := alter (apply_update obj_in) id (db store); files := files store |}.

(** The service an approved document of type [doc_type_id d] goes to,
    with the event of its call. *)
Definition service_for (env : Env) (d : DocumentRecord)
  : Event * (Store → result Response * Store) :=
  let path := quarantined env d in
  match doc_type_id d with
  | 2 => (EvProcessOcr path, process_ocr env path)
  | 3 => (EvProcessBothOcr path, process_both_ocr env path)
  | _ => (EvIngest path, ingest env path)
  end.

End Documents.

Module ApprovalExamples.
Import Documents.

(** The parts of a path between its slashes. *)
Fixpoint parts (s : string) : list string :=
  match s with
  | EmptyString => [""]
  | String c r =>
      if Ascii.eqb c "/" then "" :: parts r
      else match parts r with
           | part :: rest => String c part :: rest
           | [] => [String c ""]
           end
  end.

(** [str(PurePosixPath(s))]: the parts that are empty or ["."] are left
    out, a leading slash stays (two leading slashes stay two), and the
    path without any part is ["."]. *)
Definition posix_path (s : string) : string :=
  let kept := filter (λ part, part ≠ "" ∧ part ≠ ".") (parts s) in
  let root :=
    if String.prefix "//" s && negb (String.prefix "///" s) then "//"
    else if String.prefix "/" s then "/"
    else "" in
  if bool_decide (root = "" ∧ kept = []) then "."
  else root +:+ String.concat "/" kept.

(** A world in which ingestion and OCR need the quarantined file. *)
Definition needs_file (body : string) (path : string) (store : Store)
  : result Response * Store :=
  if decide (path ∈ files store)
  then (Ok (Passed body), store)
  else (Error (Exn FileNotFoundError path), store).

Definition env : Env :=
  {| UNCHECKED_DIR := "unchecked";
     Path := posix_path;
     status_value := λ st,
       match st with
       | PENDING => "PENDING"
       | APPROVED => "APPROVED"
       | REJECTED => "REJECTED"
       end;
     ingest := needs_file "ingested";
     process_ocr := needs_file "ocr";
     process_both_ocr := needs_file "both" |}.

Definition report (st : MakerCheckerStatus) : DocumentRecord :=
  {| filename := "report.csv";
     doc_type_id := 1;
     status := st;
     is_enabled := false;
     verified_at := None;
     verified_by := None |}.

(** [report.csv] uploaded as document 7 and waiting in quarantine. *)
Definition uploaded : Store :=
  {| db := {[ 7 := report PENDING ]}; files := {[ "unchecked/report.csv" ]} |}.

(** [report.csv] uploaded under the file name [./report.csv]. *)
Definition uploaded_with_dot : Store :=
  {| db := {[ 7 := {| filename := "./report.csv";
                      doc_type_id := 1;
                      status := PENDING;
                      is_enabled := false;
                      verified_at := None;
                      verified_by := None |} ]};
     files := {[ "unchecked/report.csv" ]} |}.

(** Document 7 approved earlier by user 3, its quarantined file gone. *)
Definition approved_file_gone : Store :=
  {| db := {[ 7 := apply_update (decision APPROVED
                                   {| upd_id := 7; upd_status := "APPROVED";
                                      upd_is_enabled := true |} 3 100)
                                (report PENDING) ]};
     files := ∅ |}.

Definition request (target : string) : DocumentUpdate :=
  {| upd_id := 7; upd_status := target; upd_is_enabled := true |}.

End ApprovalExamples.

(** ** Concrete worlds *)

Module Examples.
Import Ingest.

Definition cfg : Config :=
  {| persist_directory := "db"; source_directory := "docs" |}.

(** A text document as [TextLoader] returns it. *)
Definition note (path text : string) : Document :=
  Doc text {[ "source" := path ]}.

(** A loader that reads every file as the text ["hello"]. *)
Definition read_all (cls : loader_class) (path : string) (kw : kwargs)
  : outcome (list Document) :=
  Return [note path "hello"].

(** The same, with [docs/b.txt] not decodable. *)
Definition read_all_but_b (cls : loader_class) (path : string) (kw : kwargs)
  : outcome (list Document) :=
  if decide (path = "docs/b.txt")
  then Raise (Exn (OtherError "RuntimeError") "Error loading docs/b.txt")
  else Return [note path "hello"].

(** A loader of files without content: a CSV file with its header line
    alone has no row, and [CSVLoader] makes one document per row. *)
Definition read_nothing (cls : loader_class) (path : string) (kw : kwargs)
  : outcome (list Document) :=
  Return [].

(** [raise cls(message)] for the classes of the examples. *)
Definition raise_class (cls : exn_class) (message : string) : exn :=
  match cls with
  | KeyError => Exn KeyError ("'" +:+ message +:+ "'")
  | ValueErrorSubclass "UnicodeDecodeError" =>
      Exn (OtherError "TypeError")
          "function takes exactly 5 arguments (1 given)"
  | _ => Exn cls message
  end.

(** A splitter that keeps every non-empty document as one chunk. *)
Definition one_chunk (size overlap : nat) (docs : list Document)
  : list Document :=
  filter (λ d, page_content d ≠ "") docs.

(** The persist directory ["db"] with [n] pickled index files beside one
    binary index file. *)
Definition persisted_paths : list string :=
  ["db/index"; "db/chroma-collections.parquet"; "db/chroma-embeddings.parquet"].

Definition index_pkl (n : nat) : list string :=
  take n ["db/index/id_to_uuid_1.pkl"; "db/index/index_metadata_1.pkl";
          "db/index/uuid_to_id_1.pkl"].

(** A world with the source files [txt] under ["docs"], [n] pickled
    index files, the loader [loader] and the completion order [order]. *)
Definition world (txt : list string) (n : nat)
    (loader : loader_class → string → kwargs → outcome (list Document))
    (order : list nat) : World :=
  {| path_exists := λ p, bool_decide (p ∈ persisted_paths);
     glob := λ recursive pattern,
       if decide (pattern = "docs/**/*.txt") then
         if recursive then txt else []
       else if decide (pattern = "db/index/*.bin") then ["db/index/index_1.bin"]
       else if decide (pattern = "db/index/*.pkl") then index_pkl n
       else [];
     library_load := loader;
     split_documents := one_chunk;
     completion := order;
     new_exception := raise_class |}.

Definition two_notes : World :=
  world ["docs/a.txt"; "docs/b.txt"] 3 read_all [1].

Definition two_notes_later : World :=
  world ["docs/a.txt"; "docs/b.txt"] 3 read_all [].

Definition one_broken : World :=
  world ["docs/a.txt"; "docs/b.txt"] 3 read_all_but_b [].


Definition three_index_files : World :=
  world ["docs/a.txt"] 2 read_all [].

Definition header_only : World :=
  world [] 3 read_nothing [].

End Examples.

(** ** More of ingest.py: what glob is assumed to answer, and worlds
    for the e-mail loader *)

Module IngestMore.
Import Ingest.

(** [glob.glob] answers a pattern [<dir>/**/*<ext>] with paths that end
    in [<ext>]. *)
Definition glob_answers_pattern (w : World) (source_dir : string) : Prop :=
  ∀ ext entry file_path,
    dict_get LOADER_MAPPING ext = Some entry →
    file_path ∈ glob w true (path_join source_dir ("**/*" +:+ ext)) →
    ∃ base, file_path = base +:+ ext.

(** An e-mail library that finds no HTML part and reads the plain text
    when asked to. *)
Definition plain_text_mail (cls : loader_class) (path : string) (kw : kwargs)
  : outcome (list Document) :=
  if decide (("content_source", "text/plain") ∈ kw)
  then Return [Examples.note path "plain text"]
  else Raise (Exn ValueError "text/html content not found in email").

(** An e-mail library that cannot open the file. *)
Definition unreadable_mail (cls : loader_class) (path : string) (kw : kwargs)
  : outcome (list Document) :=
  Raise (Exn FileNotFoundError "No such file or directory").

(** An e-mail library that meets a byte it cannot decode. *)
Definition undecodable_mail (cls : loader_class) (path : string) (kw : kwargs)
  : outcome (list Document) :=
  Raise (Exn (ValueErrorSubclass "UnicodeDecodeError")
           "'utf-8' codec can't decode byte 0xff in position 0: invalid start byte").

(** A store whose second record has no source in its metadata. *)
Definition store_with_unsourced_record : list Document :=
  [Examples.note "docs/a.txt" "hello"; Doc "orphan" ∅].

(** The source directory with one file, and a valid persist directory. *)
Definition one_note : World :=
  Examples.world ["docs/a.txt"] 3 Examples.read_all [].

End IngestMore.

(** ** Stores for the /verify route taken twice *)

Module ApprovalMore.
Import Documents.

(** Two uploads under the same file name: documents 7 and 8 share the
    quarantined file. *)
Definition uploaded_twice : Store :=
  {| db := {[ 7 := ApprovalExamples.report PENDING;
              8 := ApprovalExamples.report PENDING ]};
     files := {[ "unchecked/report.csv" ]} |}.

Definition request_for (id : nat) (target : string) : DocumentUpdate :=
  {| upd_id := id; upd_status := target; upd_is_enabled := false |}.

End ApprovalMore.

(** ** ingest.py: prompt_user *)

Module Prompt.

(** The calls of [prompt_user] that change the machine. *)
Inductive Effect :=
| Makedirs (path : string)
| SetKey (dotenv_path key_to_set value_to_set : string).

#[global] Instance Effect_eq_dec : EqDecision Effect.
Proof. solve_decision. Defined.

(** The machine [prompt_user] runs on, and the builtins it calls. What the
    file system answers may depend on the calls made before, which the
    first argument lists. *)
Record Machine := {
  (** [os.listdir] *)
  os_listdir : list Effect → string → outcome (list string);
  (** [os.path.isdir] *)
  os_isdir : list Effect → string → bool;
  (** [os.path.exists] *)
  os_exists : list Effect → string → bool;
  (** the exception that [os.makedirs] or [set_key] raises, if it does *)
  raises : list Effect → Effect → option exn;
  (** [str.lower], [str.strip] and [int] *)
  lower : string → string;
  strip : string → string;
  int : string → option Z
}.

(** A computation that makes such calls: the calls made so far go in,
    the outcome and the calls made then come out. *)
Definition T (A : Type) : Type := list Effect → outcome A * list Effect.

Definition pure {A} (a : A) : T A := λ calls, (Return a, calls).

Definition lift {A} (o : outcome A) : T A := λ calls, (o, calls).

Definition and_then {A B} (m : T A) (k : A → T B) : T B :=
  λ calls,
    match m calls with
    | (Return a, calls') => k a calls'
    | (Raise e, calls') => (Raise e, calls')
    | (Exit c, calls') => (Exit c, calls')
    end.

Definition perform (m : Machine) (eff : Effect) : T unit :=
  λ calls,
    (match raises m calls eff with
     | Some e => Raise e
     | None => Return tt
     end,
     calls ++ [eff]).

(** [sorted(l, key=key)]: a stable sort that compares keys with [<]. *)
Fixpoint insert_by (key : string → string) (x : string) (l : list string)
  : list string :=
  match l with
  | [] => [x]
  | y :: l' =>
      if String.ltb (key y) (key x) then y :: insert_by key x l' else x :: l
  end.

Definition sorted (key : string → string) (l : list string) : list string :=
  foldr (insert_by key) [] l.

(** [l[i]] for an integer [i]: a negative index counts from the end. *)
Definition index {A} (l : list A) (i : Z) : outcome A :=
  let n := Z.of_nat (length l) in
  let j := if (i <? 0)%Z then (i + n)%Z else i in
  if (0 <=? j)%Z && (j <? n)%Z
  then match l !! Z.to_nat j with
       | Some x => Return x
       | None => Raise (Exn IndexError "list index out of range")
       end
  else Raise (Exn IndexError "list index out of range").

(** [int(s)] *)
Definition int_of (m : Machine) (s : string) : outcome Z :=
  match int m s with
  | Some n => Return n
  | None =>
      Raise (Exn ValueError
               ("invalid literal for int() with base 10: '" +:+ s +:+ "'"))
  end.

(** The directories under [./sources] that are listed for choice 1. *)
Definition listed (m : Machine) (calls : list Effect) (file : string) : bool :=
  os_isdir m calls (Ingest.path_join "./sources" file)
  && negb (String.prefix "." file).

Definition _display_directories (m : Machine) : T (list string) :=
  λ calls,
    (files ←! os_listdir m calls "./sources";
     Return (sorted (lower m) (filter (λ file, listed m calls file = true) files)),
     calls).

Definition _create_directory (m : Machine) (directory_name : string)
  : T (string * string) :=
  let directory_path := "./sources/" +:+ directory_name in
  let db_path := "./dbs/" +:+ directory_name in
  and_then (perform m (Makedirs directory_path)) (λ _,
  and_then (perform m (Makedirs db_path)) (λ _,
  and_then (perform m (SetKey ".env" "SOURCE_DIRECTORY" directory_path)) (λ _,
  and_then (perform m (SetKey ".env" "PERSIST_DIRECTORY" db_path)) (λ _,
  pure (directory_path, db_path))))).

(** The [try] block of choice 1 on the line typed as the number: the
    pair selected when the loop is left with [break], nothing when the
    directory is empty. *)
Definition select_directory (m : Machine) (directories : list string)
    (existing_directory : string) : T (option (string * string)) :=
  and_then (lift (int_of m existing_directory)) (λ number,
  and_then (lift (index directories (number - 1))) (λ selected_directory,
  let selected_directory_path := "./sources/" +:+ selected_directory in
  let selected_db_path := "./dbs/" +:+ selected_directory in
  and_then (λ calls, (os_listdir m calls selected_directory_path, calls))
    (λ entries,
  match entries with
  | [] => pure None
  | _ =>
      and_then (λ calls,
                  if os_exists m calls selected_db_path
                  then (Return tt, calls)
                  else perform m (Makedirs selected_db_path) calls) (λ _,
      and_then (perform m (SetKey ".env" "SOURCE_DIRECTORY"
                             selected_directory_path)) (λ _,
      and_then (perform m (SetKey ".env" "PERSIST_DIRECTORY" selected_db_path))
        (λ _,
      pure (Some (selected_directory_path, selected_db_path)))))
  end))).

(** [except (ValueError, IndexError)] *)
Definition caught (e : exn) : bool :=
  match exn_cls e with
  | ValueError | ValueErrorSubclass _ | IndexError => true
  | _ => false
  end.

(** The read at which the program is waiting for the terminal. *)
Inductive Waiting :=
| AtMenu
| AtNumber (directories : list string)
| AtName
| AtEnter (selected : string * string).

(** [_get_user_choice(timeout=5)] on what the terminal gives: a line, or
    nothing within the five seconds. *)
Definition _get_user_choice (m : Machine) (read : option string) : string :=
  match read with
  | Some line => strip m line
  | None => "3"
  end.

(** The loop of [prompt_user] from the read it is waiting at, on a
    script of the terminal: for each read in turn, the line typed or, for
    no line within five seconds, [None] (which [input] waits through).
    The answer is the outcome of [prompt_user] with the calls it made, or
    [None] when the script ends while the program is still reading. *)
Fixpoint session (m : Machine) (cfg : Ingest.Config) (at_read : Waiting)
    (calls : list Effect) (script : list (option string))
  : option (outcome (string * string) * list Effect) :=
  match script with
  | [] => None
  | read :: script' =>
      match at_read with
      | AtMenu =>
          let choice := _get_user_choice m read in
          if decide (choice = "1") then
            match _display_directories m calls with
            | (Return directories, calls') =>
                session m cfg (AtNumber directories) calls' script'
            | (Raise e, calls') => Some (Raise e, calls')
            | (Exit c, calls') => Some (Exit c, calls')
            end
          else if decide (choice = "2") then
            session m cfg AtName calls script'
          else if decide (choice = "3") then
            Some (Return (Ingest.source_directory cfg,
                          Ingest.persist_directory cfg), calls)
          else if decide (choice = "q") then
            Some (Exit 0, calls)
          else
            session m cfg AtMenu calls script'
      | AtNumber directories =>
          match read with
          | None => session m cfg at_read calls script'
          | Some existing_directory =>
              match select_directory m directories existing_directory calls with
              | (Return (Some selected), calls') =>
                  Some (Return selected, calls')
              | (Return None, calls') => session m cfg AtMenu calls' script'
              | (Raise e, calls') =>
                  if caught e then session m cfg AtMenu calls' script'
                  else Some (Raise e, calls')
              | (Exit c, calls') => Some (Exit c, calls')
              end
          end
      | AtName =>
          match read with
          | None => session m cfg at_read calls script'
          | Some new_directory_name =>
              match _create_directory m new_directory_name calls with
              | (Return selected, calls') =>
                  session m cfg (AtEnter selected) calls' script'
              | (Raise e, calls') => Some (Raise e, calls')
              | (Exit c, calls') => Some (Exit c, calls')
              end
          end
      | AtEnter selected =>
          match read with
          | None => session m cfg at_read calls script'
          | Some _ => Some (Return selected, calls)
          end
      end
  end.

Definition prompt_user (m : Machine) (cfg : Ingest.Config)
    (script : list (option string))
  : option (outcome (string * string) * list Effect) :=
  session m cfg AtMenu [] script.

(** *** Vocabulary of the statements *)

(** A choice that the menu does not know. *)
Definition unknown_choice (m : Machine) (read : option string) : Prop :=
  _get_user_choice m read ∉ ["1"; "2"; "3"; "q"].

(** The pair for the directory named [d], and the two writes to [.env]
    that record it. *)
Definition pair_for (d : string) : string * string :=
  ("./sources/" +:+ d, "./dbs/" +:+ d).

Definition recorded_in_dotenv (selected : string * string) : list Effect :=
  [SetKey ".env" "SOURCE_DIRECTORY" selected.1;
   SetKey ".env" "PERSIST_DIRECTORY" selected.2].

(** *** A machine *)

Definition ascii_lower (c : ascii) : ascii :=
  if Ingest.is_upper c then ascii_of_nat (nat_of_ascii c + 32) else c.

Fixpoint lower_ascii (s : string) : string :=
  match s with
  | EmptyString => EmptyString
  | String c r => String (ascii_lower c) (lower_ascii r)
  end.

Fixpoint lstrip (s : string) : string :=
  match s with
  | String c r => if Ascii.eqb c " " then lstrip r else s
  | EmptyString => EmptyString
  end.

Definition strip_spaces (s : string) : string :=
  String.rev (lstrip (String.rev (lstrip s))).

(** [./sources] holds the directories [beta], [.git], [Alpha] and [empty]
    and the file [notes.txt]; [./dbs] holds [Alpha]. A directory cannot
    be made twice. *)
Definition desk : Machine :=
  {| os_listdir := λ calls path,
       if decide (path = "./sources")
       then Return ["beta"; ".git"; "Alpha"; "notes.txt"; "empty"]
       else if decide (path = "./sources/beta") then Return ["a.txt"]
       else if decide (path = "./sources/Alpha") then Return ["b.txt"]
       else if decide (path = "./sources/empty") then Return []
       else Raise (Exn FileNotFoundError path);
     os_isdir := λ calls path,
       bool_decide (path ∈ ["./sources/beta"; "./sources/.git";
                            "./sources/Alpha"; "./sources/empty"]);
     os_exists := λ calls path,
       bool_decide (path ∈ ["./sources/beta"; "./sources/.git";
                            "./sources/Alpha"; "./sources/empty";
                            "./sources/notes.txt"; "./dbs/Alpha"]
                    ∨ Makedirs path ∈ calls);
     raises := λ calls eff,
       match eff with
       | Makedirs path =>
           if bool_decide (path ∈ ["./sources/beta"; "./sources/.git";
                                   "./sources/Alpha"; "./sources/empty";
                                   "./sources/notes.txt"; "./dbs/Alpha"]
                           ∨ Makedirs path ∈ calls)
           then Some (Exn (OtherError "FileExistsError") path)
           else None
       | SetKey _ _ _ => None
       end;
     lower := lower_ascii;
     strip := strip_spaces;
     int := λ s,
       if decide (s = "0") then Some 0%Z
       else if decide (s = "1") then Some 1%Z
       else if decide (s = "2") then Some 2%Z
       else if decide (s = "3") then Some 3%Z
       else if decide (s = "4") then Some 4%Z
       else if decide (s = "-1") then Some (-1)%Z
       else None |}.

End Prompt.

(** ** documents.py: the /update, /department_update and /upload routes *)

Module Routes.
Import Documents.


(** [schemas.DocumentDepartmentUpdate] *)
Record DocumentDepartmentUpdate := {
  dep_filename : string;
  dep_departments : list string
}.

(** The calls of the three routes that may change something, in the
    order they are made. *)
Inductive Call :=
| CallUpdate (id : nat) (is_enabled : bool)
| CallInsert (document_id : nat) (department_id : Z)
| CallAudit (user_id : nat)
| CallStage (path : string)
| CallCreate (filename : string).

#[global] Instance Call_eq_dec : EqDecision Call.
Proof. solve_decision. Defined.

(** What the routes import and this file does not define. Each call
    answers and leaves a store; a write to the quarantine directory that
    raises leaves some set of files. *)
Record Services := {
  (** [crud.documents.get_by_filename]: the id and the row *)
  get_by_filename : Store → string → option (nat * DocumentRecord);
  (** [crud.documents.update(db, db_obj, obj_in)] with a [DocumentEnable] *)
  crud_update : nat → bool → Store → result DocumentRecord * Store;
  (** [db.execute(document_department_association.insert()...)] *)
  db_execute_insert : nat → Z → Store → result unit * Store;
  (** [log_audit(...)] *)
  log_audit : nat → Store → result unit * Store;
  (** [int] *)
  int : string → option Z;
  (** [file.read()] and the write through [aiofiles]: the files left if
      one of them raises *)
  write_raises : string → Store → option (gset string);
  (** [private_gpt.server.ingest.ingest_router.create_documents] *)
  create_documents : string → nat → Store → result DocumentRecord * Store
}.

(** A computation on the store that records the calls it makes. *)
Definition R (A : Type) : Type :=
  Store * list Call → result A * (Store * list Call).

Definition ret {A} (a : A) : R A := λ s, (Ok a, s).

Definition bind {A B} (m : R A) (k : A → R B) : R B :=
  λ s, match m s with
       | (Ok a, s') => k a s'
       | (HTTPError e, s') => (HTTPError e, s')
       | (Error e, s') => (Error e, s')
       end.

Definition raise {A} (r : result A) : R A := λ s, (r, s).

Definition raise_http {A} (code : nat) (msg : string) : R A :=
  raise (HTTPError {| status_code := code; detail := msg |}).

(** A call of one of the services. *)
Definition call {A} (c : Call) (service : Store → result A * Store) : R A :=
  λ s, let '(r, store') := service s.1 in (r, (store', s.2 ++ [c])).

(** [for x in l: f(x)] *)
Fixpoint for_each {A} (f : A → R unit) (l : list A) : R unit :=
  match l with
  | [] => ret tt
  | x :: l' => bind (f x) (λ _, for_each f l')
  end.

(** [[int(number) for number in departments]] *)
Fixpoint ints (sv : Services) (l : list string) : result (list Z) :=
  match l with
  | [] => Ok []
  | number :: l' =>
      match int sv number with
      | None =>
          Error (Exn ValueError
                   ("invalid literal for int() with base 10: '"
                    +:+ number +:+ "'"))
      | Some n =>
          match ints sv l' with
          | Ok ns => Ok (n :: ns)
          | HTTPError e => HTTPError e
          | Error e => Error e
          end
      end
  end.

(** [except Exception: raise HTTPException(500, "Internal Server Error.")],
    which an [HTTPException] raised in the [try] block meets too. *)
Definition except_all {A} (r : result A) : result A :=
  match r with
  | Ok a => Ok a
  | _ => HTTPError {| status_code := 500; detail := "Internal Server Error." |}
  end.

(** *** update_document *)



(** *** update_department *)

Definition update_department_try (sv : Services)
    (document_in : DocumentDepartmentUpdate) (current_user : nat)
  : R DocumentRecord :=
  λ s,
    match get_by_filename sv s.1 (dep_filename document_in) with
    | None =>
        (** [document.departments] on [None] *)
        raise (Error (Exn (OtherError "AttributeError")
                        "'NoneType' object has no attribute 'departments'")) s
    | Some (id, document) =>
        bind (raise (ints sv (dep_departments document_in))) (λ department_ids,
        bind (for_each
                (λ department_id,
                   call (CallInsert id department_id)
                     (db_execute_insert sv id department_id))
                department_ids) (λ _,
        bind (call (CallAudit current_user) (log_audit sv current_user)) (λ _,
        ret document))) s
    end.

Definition update_department (sv : Services)
    (document_in : DocumentDepartmentUpdate) (current_user : nat)
    (store : Store)
  : result DocumentRecord * (Store * list Call) :=
  let '(r, s) := update_department_try sv document_in current_user (store, []) in
  (except_all r, s).

(** *** upload_documents *)

(** [Path(f"{UNCHECKED_DIR}/{original_filename}")] *)
Definition upload_path (env : Env) (original_filename : string) : string :=
  Path env (UNCHECKED_DIR env +:+ "/" +:+ original_filename).

(** [contents = await file.read()] and the write of [contents] to
    [upload_path], with the [except Exception] around them. *)
Definition stage (sv : Services) (path : string) : R unit :=
  λ s,
    match write_raises sv path s.1 with
    | Some remaining =>
        (HTTPError {| status_code := 500;
                      detail := "Internal Server Error: Unable to ingest file." |},
         ({| db := db s.1; files := remaining |}, s.2 ++ [CallStage path]))
    | None =>
        (Ok tt,
         ({| db := db s.1; files := files s.1 ∪ {[path]} |},
          s.2 ++ [CallStage path]))
    end.

Definition upload_documents_try (env : Env) (sv : Services)
    (filename : option string) (current_user : nat) : R DocumentRecord :=
  match filename with
  | None => raise_http 400 "No file name provided"
  | Some original_filename =>
      bind (stage sv (upload_path env original_filename)) (λ _,
      call (CallCreate original_filename)
        (create_documents sv original_filename current_user))
  end.

(** [except HTTPException: raise] and
    [except Exception: raise HTTPException(500, ...)] *)
Definition except_upload {A} (r : result A) : result A :=
  match r with
  | Error _ =>
      HTTPError {| status_code := 500;
                   detail := "Internal Server Error: Unable to upload file." |}
  | _ => r
  end.

Definition upload_documents (env : Env) (sv : Services)
    (filename : option string) (current_user : nat) (store : Store)
  : result DocumentRecord * (Store * list Call) :=
  let '(r, s) :=
    upload_documents_try env sv filename current_user (store, []) in
  (except_upload r, s).

(** *** Vocabulary of the statements *)

Definition internal_server_error : HTTPException :=
  {| status_code := 500; detail := "Internal Server Error." |}.

(** [create_documents] leaves the quarantine directory alone. *)
Definition create_keeps_files (sv : Services) : Prop :=
  ∀ original_filename user store,
    files (create_documents sv original_filename user store).2 = files store.

(** *** Services for the examples *)

(** A metadata store that finds a row by its file name among the ids 7
    and 8, enables or disables it, numbers a new row 9, and reads
    department numbers of one digit. *)
Definition office : Services :=
  {| get_by_filename := λ store name,
       match db store !! 7 with
       | Some d => if decide (filename d = name) then Some (7, d) else
           match db store !! 8 with
           | Some d' => if decide (filename d' = name) then Some (8, d') else None
           | None => None
           end
       | None => None
       end;
     crud_update := λ id enabled store,
       match db store !! id with
       | Some d =>
           let d' := {| filename := filename d; doc_type_id := doc_type_id d;
                        status := status d; is_enabled := enabled;
                        verified_at := verified_at d;
                        verified_by := verified_by d |} in
           (Ok d', {| db := <[id := d']> (db store); files := files store |})
       | None => (Error (Exn KeyError "no such row"), store)
       end;
     db_execute_insert := λ id department store, (Ok tt, store);
     log_audit := λ user store, (Ok tt, store);
     int := λ s,
       if decide (s = "1") then Some 1%Z
       else if decide (s = "2") then Some 2%Z
       else if decide (s = "3") then Some 3%Z
       else None;
     write_raises := λ path store, None;
     create_documents := λ name user store,
       let d := {| filename := name; doc_type_id := 1; status := PENDING;
                   is_enabled := false; verified_at := None;
                   verified_by := None |} in
       (Ok d, {| db := <[9 := d]> (db store); files := files store |}) |}.

(** The same office with the metadata store out of reach when a row is
    to be created. *)
Definition office_down : Services :=
  {| get_by_filename := get_by_filename office;
     crud_update := crud_update office;
     db_execute_insert := db_execute_insert office;
     log_audit := log_audit office;
     int := int office;
     write_raises := write_raises office;
     create_documents := λ name user store,
       (Error (Exn (OtherError "OperationalError") "connection refused"),
        store) |}.

Definition nothing_uploaded : Store := {| db := ∅; files := ∅ |}.

End Routes.

(** ** Properties of ingest.py *)

Module IngestFacts.
Import Ingest.

(** *** Outcomes *)

Lemma traverse_Return {A B} (f : A → outcome B) l ys :
  traverse f l = Return ys ↔ Forall2 (λ x y, f x = Return y) l ys.
Proof.
  revert ys. induction l as [|x l IH]; intros ys; simpl.
  - split.
    + intros [= <-]. constructor.
    + intros H. by inversion H.
  - split.
    + destruct (f x) as [y| |] eqn:Hx; simpl; try done.
      destruct (traverse f l) as [ys'| |] eqn:Hl; simpl; try done.
      intros [= <-]. constructor; [done|]. by apply IH.
    + intros H. inversion H as [|? y ? ys' Hx Hl]; subst.
      apply IH in Hl. by rewrite Hx, Hl.
Qed.

Lemma traverse_returns {A B} (f : A → outcome B) l :
  returns (traverse f l) = true ↔ Forall (λ x, returns (f x) = true) l.
Proof.
  induction l as [|x l IH]; simpl.
  - split; [constructor | done].
  - rewrite Forall_cons, <- IH.
    destruct (f x); simpl; [|intuition congruence..].
    destruct (traverse f l); simpl; intuition congruence.
Qed.

Lemma returns_true {A} (m : outcome A) :
  returns m = true ↔ ∃ a, m = Return a.
Proof.
  destruct m; simpl; (split; [intros ?|intros [? ?]]); eauto; congruence.
Qed.

Lemma traverse_app {A B} (f : A → outcome B) l1 l2 ys1 ys2 :
  traverse f l1 = Return ys1 → traverse f l2 = Return ys2 →
  traverse f (l1 ++ l2) = Return (ys1 ++ ys2).
Proof.
  rewrite !traverse_Return. apply Forall2_app.
Qed.

Lemma traverse_app_fail {A B} (f : A → outcome B) l1 l2 :
  returns (traverse f l1) = false →
  traverse f (l1 ++ l2) = traverse f l1.
Proof.
  induction l1 as [|x l1 IH]; simpl; [done|].
  destruct (f x); simpl; [|done..].
  destruct (traverse f l1) eqn:E; simpl in *; [done|..];
    intros _; by rewrite IH.
Qed.

(** *** Completion order *)

Lemma schedule_Permutation {A} (choices : list nat) (tasks : list A) :
  schedule choices tasks ≡ₚ tasks.
Proof.
  revert tasks. induction choices as [|c cs IH]; intros tasks; simpl; [done|].
  destruct (tasks !! (c `mod` length tasks)) as [x|] eqn:Hx; [|done].
  rewrite IH. symmetry. by apply delete_Permutation.
Qed.

Lemma schedule_length {A} (choices : list nat) (tasks : list A) :
  length (schedule choices tasks) = length tasks.
Proof. by rewrite schedule_Permutation. Qed.

Lemma schedule_elem_of {A} (choices : list nat) (tasks : list A) x :
  x ∈ schedule choices tasks ↔ x ∈ tasks.
Proof. by rewrite schedule_Permutation. Qed.

(** *** load_single_document *)

Lemma load_single_document_unsupported w file_path :
  dict_get LOADER_MAPPING (extension file_path) = None →
  load_single_document w file_path = Raise (unsupported (extension file_path)).
Proof. unfold load_single_document. by intros ->. Qed.

Lemma load_single_document_registered w file_path cls args :
  dict_get LOADER_MAPPING (extension file_path) = Some (cls, args) →
  load_single_document w file_path
  = Py.bind (load w cls file_path args) first.
Proof. unfold load_single_document. by intros ->. Qed.

(** C8 fails at a CSV file with its header line alone: the extension is
    registered and [CSVLoader] is run, but it extracts nothing, and
    [load_single_document] ends with the IndexError of [[0]] on an empty
    list instead of returning a document. *)
Lemma load_single_document_nothing_extracted :
  dict_get LOADER_MAPPING (extension "docs/empty.csv") = Some (CSVLoader, [])
  ∧ load Examples.header_only CSVLoader "docs/empty.csv" [] = Return []
  ∧ load_single_document Examples.header_only "docs/empty.csv"
    = Raise (Exn IndexError "list index out of range")
  ∧ returns (load_single_document Examples.header_only "docs/empty.csv")
    = false.
Proof. by repeat split. Qed.

(** C8, as the code has it. A path whose extension has no entry in
    LOADER_MAPPING is refused with the ValueError for unsupported
    extensions. For a path whose extension has an entry, the loader run
    is the class of that entry with the arguments of that entry: when it
    extracts at least one document, the first one is returned and the
    others are dropped; when it extracts none, the call ends with an
    IndexError; when the loader raises or exits, so does the call, with
    the loader's exception as it is. *)
Theorem load_single_document_selects (w : World) (file_path : string) :
  (dict_get LOADER_MAPPING (extension file_path) = None →
     load_single_document w file_path
     = Raise (unsupported (extension file_path)))
  ∧ (∀ cls args,
       dict_get LOADER_MAPPING (extension file_path) = Some (cls, args) →
       (∀ d rest,
          load w cls file_path args = Return (d :: rest) →
          load_single_document w file_path = Return d)
       ∧ (load w cls file_path args = Return [] →
          load_single_document w file_path
          = Raise (Exn IndexError "list index out of range"))
       ∧ (∀ e,
            load w cls file_path args = Raise e →
            load_single_document w file_path = Raise e)
       ∧ (∀ code,
            load w cls file_path args = Exit code →
            load_single_document w file_path = Exit code)).
Proof.
  split.
  - apply load_single_document_unsupported.
  - intros cls args Hreg.
    rewrite (load_single_document_registered _ _ _ _ Hreg).
    repeat split; intros; by match goal with H : load _ _ _ _ = _ |- _ =>
                                   rewrite H end.
Qed.

Lemma load_single_document_selects_witness :
  load_single_document Examples.two_notes "docs/a.xyz"
  = Raise (Exn ValueError "Unsupported file extension '.xyz'")
  ∧ load_single_document Examples.two_notes "docs/a.txt"
    = Return (Examples.note "docs/a.txt" "hello")
  ∧ load_single_document Examples.header_only "docs/empty.csv"
    = Raise (Exn IndexError "list index out of range")
  ∧ load_single_document Examples.one_broken "docs/b.txt"
    = Raise (Exn (OtherError "RuntimeError") "Error loading docs/b.txt").
Proof.
  split; [|split; [|split]].
  - apply (load_single_document_selects Examples.two_notes "docs/a.xyz").
    reflexivity.
  - destruct (load_single_document_selects Examples.two_notes "docs/a.txt")
      as [_ Hreg].
    destruct (Hreg TextLoader [("encoding", "utf8")]) as (Hfirst & _);
      [reflexivity|].
    apply (Hfirst (Examples.note "docs/a.txt" "hello") []). reflexivity.
  - destruct (load_single_document_selects Examples.header_only
                "docs/empty.csv") as [_ Hreg].
    destruct (Hreg CSVLoader []) as (_ & Hnone & _); [reflexivity|].
    apply Hnone. reflexivity.
  - destruct (load_single_document_selects Examples.one_broken "docs/b.txt")
      as [_ Hreg].
    destruct (Hreg TextLoader [("encoding", "utf8")]) as (_ & _ & Hraise & _);
      [reflexivity|].
    apply Hraise. reflexivity.
Defined.

(** C10 fails at the path ["txt"]: the path has no dot, [rsplit] gives
    the whole path back, the extension computed is [".txt"], and the
    text loader is selected and run on the path instead of the path
    being refused as unsupported. *)
Lemma load_single_document_dotless_txt :
  after_last_dot "txt" = None
  ∧ extension "txt" = ".txt"
  ∧ dict_get LOADER_MAPPING (extension "txt")
    = Some (TextLoader, [("encoding", "utf8")])
  ∧ load_single_document Examples.two_notes "txt"
    = Return (Examples.note "txt" "hello").
Proof. by repeat split. Qed.

(** Every registered extension is lower-case, and the lookup compares
    strings as they are: an extension with an upper-case letter is not
    registered. *)
Lemma upper_case_unregistered (ext : string) :
  has_upper ext = true → dict_get LOADER_MAPPING ext = None.
Proof.
  intros Hup. unfold LOADER_MAPPING. simpl.
  repeat (destruct (decide _) as [<-|_]; [by vm_compute in Hup|]).
  done.
Qed.

(** X4. A path whose part after the last dot has an upper-case letter
    is refused as unsupported, also when it differs from a registered
    extension in letter case only. *)
Lemma load_single_document_upper_case w file_path :
  has_upper (rsplit_dot_last file_path) = true →
  load_single_document w file_path = Raise (unsupported (extension file_path)).
Proof.
  intros Hup. apply load_single_document_unsupported, upper_case_unregistered.
  unfold extension. simpl. exact Hup.
Qed.

(** A path without a dot is refused unless the whole path is one of the
    registered extensions without its dot. *)
Lemma load_single_document_dotless w file_path :
  after_last_dot file_path = None →
  dict_get LOADER_MAPPING ("." +:+ file_path) = None →
  load_single_document w file_path
  = Raise (unsupported ("." +:+ file_path)).
Proof.
  intros Hdot Hreg.
  assert (extension file_path = "." +:+ file_path) as Hext
    by (unfold extension, rsplit_dot_last; by rewrite Hdot).
  rewrite <- Hext in *. by apply load_single_document_unsupported.
Qed.

(** C10, as the code has it. The lookup takes the part of the path after
    its last dot as it is written and compares it with the registered
    extensions, which are all lower-case: a path whose part after the
    last dot has an upper-case letter is refused as unsupported. A path
    without any dot is taken whole as that part: it is refused exactly
    when the path with a dot put before it is not a registered
    extension, and otherwise the loader registered for that extension
    is run on it. *)
Theorem load_single_document_literal (w : World) (file_path : string) :
  (has_upper (rsplit_dot_last file_path) = true →
     load_single_document w file_path
     = Raise (unsupported (extension file_path)))
  ∧ (after_last_dot file_path = None →
     extension file_path = "." +:+ file_path
     ∧ (dict_get LOADER_MAPPING ("." +:+ file_path) = None →
        load_single_document w file_path
        = Raise (unsupported ("." +:+ file_path)))
     ∧ (∀ cls args,
          dict_get LOADER_MAPPING ("." +:+ file_path) = Some (cls, args) →
          load_single_document w file_path
          = Py.bind (load w cls file_path args) first)).
Proof.
  split.
  - intros Hup. apply load_single_document_unsupported, upper_case_unregistered.
    unfold extension. simpl. exact Hup.
  - intros Hdot.
    assert (extension file_path = "." +:+ file_path) as Hext
      by (unfold extension, rsplit_dot_last; by rewrite Hdot).
    split; [done|]. split.
    + by apply load_single_document_dotless.
    + intros cls args Hreg. apply load_single_document_registered.
      by rewrite Hext.
Qed.

Lemma load_single_document_literal_witness :
  load_single_document Examples.two_notes "docs/REPORT.PDF"
  = Raise (Exn ValueError "Unsupported file extension '.PDF'")
  ∧ load_single_document Examples.two_notes "README"
    = Raise (Exn ValueError "Unsupported file extension '.README'")
  ∧ load_single_document Examples.two_notes "pdf"
    = Return (Examples.note "pdf" "hello").
Proof.
  destruct (load_single_document_literal Examples.two_notes "docs/REPORT.PDF")
    as [Hupper _].
  destruct (load_single_document_literal Examples.two_notes "README")
    as [_ Hreadme].
  destruct (load_single_document_literal Examples.two_notes "pdf")
    as [_ Hpdf].
  split; [|split].
  - apply Hupper. reflexivity.
  - destruct Hreadme as (_ & Hrefused & _); [reflexivity|].
    apply Hrefused. reflexivity.
  - destruct Hpdf as (_ & _ & Hselected); [reflexivity|].
    rewrite (Hselected PDFMinerLoader []); reflexivity.
Defined.

(** *** does_vectorstore_exist *)

(** What the check tests: the index directory, the two parquet files,
    and more than three index files. *)
Lemma does_vectorstore_exist_true (w : World) (dir : string) :
  does_vectorstore_exist w dir = true
  ↔ path_exists w (path_join dir "index") = true
    ∧ path_exists w (path_join dir "chroma-collections.parquet") = true
    ∧ path_exists w (path_join dir "chroma-embeddings.parquet") = true
    ∧ 3 < length (glob w false (path_join dir "index/*.bin")
                  ++ glob w false (path_join dir "index/*.pkl")).
Proof.
  unfold does_vectorstore_exist.
  destruct (path_exists w (path_join dir "index")); [|intuition congruence].
  destruct (path_exists w (path_join dir "chroma-collections.parquet"));
    simpl; [|intuition congruence].
  destruct (path_exists w (path_join dir "chroma-embeddings.parquet"));
    simpl; [|intuition congruence].
  case_bool_decide; intuition congruence.
Qed.

(** C6, at a persist directory with the index directory, both parquet
    files and exactly three index files (one .bin, two .pkl): the check
    answers false, and [main] builds the store anew from all source
    files, the one already stored included. *)
Theorem does_vectorstore_exist_three_index_files :
  let w := Examples.three_index_files in
  path_exists w "db/index" = true
  ∧ path_exists w "db/chroma-collections.parquet" = true
  ∧ path_exists w "db/chroma-embeddings.parquet" = true
  ∧ length (glob w false "db/index/*.bin" ++ glob w false "db/index/*.pkl") = 3
  ∧ does_vectorstore_exist w "db" = false
  ∧ main w Examples.cfg [Examples.note "docs/a.txt" "hello"]
    = Return [Examples.note "docs/a.txt" "hello"].
Proof. by repeat split. Qed.

(** *** load_documents *)

Lemma load_documents_Return w src ig docs :
  load_documents w src ig = Return docs
  ↔ Forall2 (λ f d, load_single_document w f = Return d)
            (schedule (completion w) (filtered_files w src ig)) docs.
Proof. apply traverse_Return. Qed.

Lemma load_documents_returns w src ig :
  returns (load_documents w src ig) = true
  ↔ Forall (λ f, returns (load_single_document w f) = true)
           (filtered_files w src ig).
Proof.
  unfold load_documents, imap_unordered.
  by rewrite traverse_returns, schedule_Permutation.
Qed.

Lemma load_documents_length w src ig docs :
  load_documents w src ig = Return docs →
  length docs = length (filtered_files w src ig).
Proof.
  intros H%load_documents_Return%Forall2_length.
  by rewrite <- H, schedule_length.
Qed.

(** The first call of a run that does not return ends the run. *)
Lemma traverse_stops {A B} (f : A → outcome B) done x rest :
  Forall (λ y, returns (f y) = true) done →
  returns (f x) = false →
  traverse f (done ++ x :: rest) = Py.bind (f x) (λ _, Return []).
Proof.
  intros Hdone Hx. induction Hdone as [|y done Hy _ IH]; simpl.
  - by destruct (f x).
  - destruct (f y); [|done..]. simpl. rewrite IH. by destruct (f x).
Qed.

Lemma traverse_first_failure {A B} (f : A → outcome B) l :
  returns (traverse f l) = false →
  ∃ done x rest,
    l = done ++ x :: rest
    ∧ Forall (λ y, returns (f y) = true) done
    ∧ returns (f x) = false.
Proof.
  induction l as [|y l IH]; simpl; [done|].
  destruct (f y) as [b| |] eqn:Hy; simpl.
  - intros Hfail.
    destruct IH as (done & x & rest & -> & Hdone & Hx).
    { by destruct (traverse f l). }
    exists (y :: done), x, rest. split; [done|]. split; [|done].
    constructor; [by rewrite Hy | done].
  - intros _. exists [], y, l. by rewrite Hy.
  - intros _. exists [], y, l. by rewrite Hy.
Qed.

(** C2, as the code has it. [load_documents] returns documents only when
    every non-ignored file loads, and then one per file, in completion
    order. When a file fails to load, the batch ends as the first file
    in completion order that fails does: whatever loaded before it is
    dropped, the files after it do not count, no document is returned
    and no failure is recorded beside the others' results. *)
Theorem load_documents_all_or_nothing (w : World) (src : string)
    (ig : list string) :
  let files := filtered_files w src ig in
  let order := schedule (completion w) files in
  order ≡ₚ files
  ∧ (Forall (λ f, returns (load_single_document w f) = true) files →
     ∃ docs, load_documents w src ig = Return docs
             ∧ length docs = length files
             ∧ Forall2 (λ f d, load_single_document w f = Return d) order docs)
  ∧ (∀ done f rest,
       order = done ++ f :: rest →
       Forall (λ g, returns (load_single_document w g) = true) done →
       returns (load_single_document w f) = false →
       load_documents w src ig
       = Py.bind (load_single_document w f) (λ _, Return []))
  ∧ (∀ f, f ∈ files → returns (load_single_document w f) = false →
       ∃ done f' rest,
         order = done ++ f' :: rest
         ∧ Forall (λ g, returns (load_single_document w g) = true) done
         ∧ returns (load_single_document w f') = false
         ∧ load_documents w src ig
           = Py.bind (load_single_document w f') (λ _, Return [])).
Proof.
  intros files order. split; [apply schedule_Permutation|]. split; [|split].
  - intros Hall%load_documents_returns%returns_true. destruct Hall as [docs Hdocs].
    exists docs. split; [done|]. split.
    + by apply load_documents_length.
    + by apply load_documents_Return.
  - intros done f rest Horder Hdone Hfail.
    unfold load_documents, imap_unordered. fold files. fold order.
    rewrite Horder. by apply traverse_stops.
  - intros f Hf Hfail.
    assert (returns (load_documents w src ig) = false) as Hret.
    { destruct (returns (load_documents w src ig)) eqn:E; [|done].
      apply load_documents_returns in E.
      rewrite Forall_forall in E. specialize (E f Hf). congruence. }
    apply traverse_first_failure in Hret as (done & f' & rest & Heq & Hdone & Hf').
    exists done, f', rest. fold files in Heq. fold order in Heq.
    split; [done|]. split; [done|]. split; [done|].
    unfold load_documents, imap_unordered. fold files. fold order.
    rewrite Heq. by apply traverse_stops.
Qed.

Lemma load_documents_all_or_nothing_witness :
  (∃ docs, load_documents Examples.two_notes "docs" [] = Return docs
           ∧ length docs = 2)
  ∧ load_documents Examples.one_broken "docs" []
    = Py.bind (load_single_document Examples.one_broken "docs/b.txt")
        (λ _, Return []).
Proof.
  split.
  - destruct (load_documents_all_or_nothing Examples.two_notes "docs" [])
      as (_ & Hall & _).
    destruct Hall as (docs & Hdocs & Hlen & _).
    + repeat constructor.
    + exists docs. split; [exact Hdocs | exact Hlen].
  - destruct (load_documents_all_or_nothing Examples.one_broken "docs" [])
      as (_ & _ & Hfirst & _).
    apply (Hfirst ["docs/a.txt"] "docs/b.txt" []).
    + reflexivity.
    + repeat constructor.
    + reflexivity.
Defined.

(** C2 fails at two files of which one does not load: the good one is
    not returned, the batch ends with the other's exception. *)
Lemma load_documents_one_broken :
  filtered_files Examples.one_broken "docs" [] = ["docs/a.txt"; "docs/b.txt"]
  ∧ load_single_document Examples.one_broken "docs/a.txt"
    = Return (Examples.note "docs/a.txt" "hello")
  ∧ returns (load_single_document Examples.one_broken "docs/b.txt") = false
  ∧ load_documents Examples.one_broken "docs" []
    = Raise (Exn (OtherError "RuntimeError") "Error loading docs/b.txt").
Proof. by repeat split. Qed.

(** *** process_documents *)





Lemma process_documents_Return w cfg ig texts :
  process_documents w cfg ig = Return texts →
  ∃ docs, load_documents w (source_directory cfg) ig = Return docs
          ∧ docs ≠ []
          ∧ texts = split_documents w chunk_size chunk_overlap docs.
Proof.
  unfold process_documents.
  destruct (load_documents w (source_directory cfg) ig) as [docs| |];
    simpl; [|done..].
  destruct docs as [|d docs]; [done|].
  intros [= <-]. by exists (d :: docs).
Qed.

Lemma process_documents_returns w cfg ig :
  returns (process_documents w cfg ig) = true
  ↔ Forall (λ f, returns (load_single_document w f) = true)
           (filtered_files w (source_directory cfg) ig)
    ∧ filtered_files w (source_directory cfg) ig ≠ [].
Proof.
  rewrite <- load_documents_returns. unfold process_documents.
  destruct (load_documents w (source_directory cfg) ig) as [docs| |] eqn:Hl;
    simpl; [|intuition congruence..].
  apply load_documents_length in Hl.
  destruct docs as [|d docs], (filtered_files w (source_directory cfg) ig);
    simpl in *; intuition congruence.
Qed.

(** *** Two runs of main *)

Section Libraries.
Context (w : World).
Hypothesis stamp : loaders_stamp_source w.

Lemma load_source cls file_path kw docs d :
  load w cls file_path kw = Return docs →
  d ∈ docs → metadata d !! "source" = Some file_path.
Proof using stamp.
  intros Hload Hd.
  destruct cls; simpl in Hload; try exact (stamp _ _ _ _ _ Hload Hd).
  unfold MyElmLoader_load, plain_text_fallback in Hload.
  destruct (library_load w UnstructuredEmailLoader file_path kw)
    as [docs'|e|c] eqn:Hfirst.
  - simpl in Hload. assert (docs' = docs) as -> by congruence.
    exact (stamp _ _ _ _ _ Hfirst Hd).
  - destruct (is_ValueError (exn_cls e)); [|discriminate Hload].
    destruct (contains _ (exn_str e)); [|discriminate Hload].
    destruct (library_load w UnstructuredEmailLoader file_path
                (set_kwarg "content_source" "text/plain" kw))
      as [docs'| |] eqn:Hsecond; try discriminate Hload.
    simpl in Hload. assert (docs' = docs) as -> by congruence.
    exact (stamp _ _ _ _ _ Hsecond Hd).
  - discriminate Hload.
Qed.

Lemma load_single_document_source file_path d :
  load_single_document w file_path = Return d →
  metadata d !! "source" = Some file_path.
Proof using stamp.
  unfold load_single_document.
  destruct (dict_get LOADER_MAPPING (extension file_path))
    as [[cls args]|]; [|done].
  destruct (load w cls file_path args) as [docs| |] eqn:Hload;
    simpl; [|done..].
  destruct docs as [|d' docs]; simpl; [done|].
  intros [= ->]. eapply load_source; [done|]. apply elem_of_cons. by left.
Qed.
End Libraries.

Lemma load_agree w1 w2 cls file_path kw docs :
  (∀ cls file_path kw,
     library_load w1 cls file_path kw = library_load w2 cls file_path kw) →
  load w1 cls file_path kw = Return docs →
  load w2 cls file_path kw = Return docs.
Proof.
  intros Hlib. destruct cls; simpl; rewrite <- ?Hlib; try done.
  unfold MyElmLoader_load, plain_text_fallback, with_file_path.
  rewrite <- !Hlib.
  destruct (library_load w1 UnstructuredEmailLoader file_path kw)
    as [docs'|e|c]; [done| |done].
  destruct (is_ValueError (exn_cls e)); [|done].
  destruct (contains _ (exn_str e)); [|done].
  by destruct (library_load w1 UnstructuredEmailLoader file_path _).
Qed.

(** Worlds with the same libraries load the same documents; what a
    failing load raises may differ with the exception classes. *)
Lemma load_single_document_agree w1 w2 file_path d :
  (∀ cls file_path kw,
     library_load w1 cls file_path kw = library_load w2 cls file_path kw) →
  load_single_document w1 file_path = Return d →
  load_single_document w2 file_path = Return d.
Proof.
  intros Hlib. unfold load_single_document.
  destruct (dict_get LOADER_MAPPING (extension file_path)) as [[cls args]|];
    [|done].
  destruct (load w1 cls file_path args) as [docs| |] eqn:Hload; [|done..].
  by rewrite (load_agree w1 w2 _ _ _ _ Hlib Hload).
Qed.

Lemma load_single_document_returns_agree w1 w2 file_path :
  (∀ cls file_path kw,
     library_load w1 cls file_path kw = library_load w2 cls file_path kw) →
  returns (load_single_document w1 file_path)
  = returns (load_single_document w2 file_path).
Proof.
  intros Hlib.
  destruct (load_single_document w1 file_path) as [d| |] eqn:H1.
  - by rewrite (load_single_document_agree w1 w2 _ _ Hlib H1).
  - destruct (load_single_document w2 file_path) as [d| |] eqn:H2; [|done..].
    rewrite (load_single_document_agree w2 w1 _ d) in H1; [done| |done].
    intros. by rewrite Hlib.
  - destruct (load_single_document w2 file_path) as [d| |] eqn:H2; [|done..].
    rewrite (load_single_document_agree w2 w1 _ d) in H1; [done| |done].
    intros. by rewrite Hlib.
Qed.

Lemma Forall2_elem_of_r {A B} (P : A → B → Prop) l k y :
  Forall2 P l k → y ∈ k → ∃ x, x ∈ l ∧ P x y.
Proof.
  induction 1 as [|x y' l k Hxy _ IH]; intros Hy.
  - by apply elem_of_nil in Hy.
  - apply elem_of_cons in Hy as [->|Hy].
    + exists x. split; [|done]. apply elem_of_cons. by left.
    + destruct (IH Hy) as (x' & Hx' & HP). exists x'.
      split; [|done]. apply elem_of_cons. by right.
Qed.

Lemma Forall2_elem_of_l {A B} (P : A → B → Prop) l k x :
  Forall2 P l k → x ∈ l → ∃ y, y ∈ k ∧ P x y.
Proof.
  induction 1 as [|x' y l k Hxy _ IH]; intros Hx.
  - by apply elem_of_nil in Hx.
  - apply elem_of_cons in Hx as [->|Hx].
    + exists y. split; [|done]. apply elem_of_cons. by left.
    + destruct (IH Hx) as (y' & Hy' & HP). exists y'.
      split; [|done]. apply elem_of_cons. by right.
Qed.

(** The documents a batch returns are those of its non-ignored files. *)
Lemma load_documents_elem_of w src ig docs d :
  load_documents w src ig = Return docs →
  d ∈ docs
  ↔ ∃ f, f ∈ filtered_files w src ig ∧ load_single_document w f = Return d.
Proof.
  intros Hl%load_documents_Return. split.
  - intros Hd. destruct (Forall2_elem_of_r _ _ _ _ Hl Hd) as (f & Hf & Hfd).
    exists f. by rewrite schedule_elem_of in Hf.
  - intros (f & Hf & Hfd). rewrite <- (schedule_elem_of (completion w)) in Hf.
    destruct (Forall2_elem_of_l _ _ _ _ Hl Hf) as (d' & Hd' & Hfd').
    congruence.
Qed.

Lemma sources_total (l : list Document) :
  (∀ c, c ∈ l → is_Some (metadata c !! "source")) →
  ∃ srcs, sources l = Return srcs
          ∧ ∀ c s, c ∈ l → metadata c !! "source" = Some s → s ∈ srcs.
Proof.
  induction l as [|c l IH]; intros Hall.
  - exists []. split; [done|]. intros c s Hc. by apply elem_of_nil in Hc.
  - destruct IH as (srcs & Hsrcs & Hin).
    { intros c' Hc'. apply Hall, elem_of_cons. by right. }
    destruct (Hall c) as [s Hs]; [apply elem_of_cons; by left|].
    exists (s :: srcs). split.
    + unfold sources in *. simpl. unfold source_of at 1. by rewrite Hs, Hsrcs.
    + intros c' s' [->|Hc']%elem_of_cons Hs'; apply elem_of_cons.
      * left. congruence.
      * right. by eapply Hin.
Qed.

Lemma flat_map_nil {A B} (f : A → list B) (l : list A) :
  (∀ x, x ∈ l → f x = []) → flat_map f l = [].
Proof.
  induction l as [|x l IH]; intros Hnil; simpl; [done|].
  rewrite (Hnil x), IH; [done| |apply elem_of_cons; by left].
  intros x' Hx'. apply Hnil, elem_of_cons. by right.
Qed.

Lemma filtered_files_agree w1 w2 cfg ig :
  same_sources w1 w2 cfg →
  filtered_files w1 (source_directory cfg) ig
  = filtered_files w2 (source_directory cfg) ig.
Proof. intros (Hfiles & _). unfold filtered_files. by rewrite Hfiles. Qed.

Lemma process_documents_returns_agree w1 w2 cfg ig :
  same_sources w1 w2 cfg →
  returns (process_documents w1 cfg ig) = returns (process_documents w2 cfg ig).
Proof.
  intros Hsame. apply eq_true_iff_eq. rewrite !process_documents_returns.
  rewrite (filtered_files_agree w1 w2 cfg ig Hsame).
  destruct Hsame as (_ & Hlib & _).
  assert (∀ f, returns (load_single_document w1 f)
               = returns (load_single_document w2 f)) as Heq
    by (intros f; by apply load_single_document_returns_agree).
  split; intros [Hall Hne]; (split; [|done]);
    (eapply Forall_impl; [exact Hall|]); intros f Hf; simpl in *;
    by rewrite ?Heq in *.
Qed.

(** With an existing store, a run persists the store it found followed
    by the records it adds. *)
Lemma persisted_after_main w cfg store :
  does_vectorstore_exist w (persist_directory cfg) = true →
  persisted_after (main w cfg store) store
  = store ++ added_records w cfg store.
Proof.
  intros Hex. unfold main, added_records. rewrite Hex.
  destruct (sources store) as [ig| |]; simpl; [|by rewrite app_nil_r..].
  destruct (process_documents w cfg ig); simpl; by rewrite ?app_nil_r.
Qed.

(** The ignore list of a run over an existing store is the list of the
    sources in the store's metadata. *)
Lemma main_ignores_stored_sources w cfg store ig :
  does_vectorstore_exist w (persist_directory cfg) = true →
  sources store = Return ig →
  main w cfg store
  = Py.bind (process_documents w cfg ig) (λ texts, Return (store ++ texts)).
Proof. intros Hex Hsrc. unfold main. by rewrite Hex, Hsrc. Qed.

(** A file on the ignore list is not loaded. *)
Lemma ignored_not_loaded w src ig f :
  f ∈ ig → f ∉ filtered_files w src ig.
Proof. intros Hf [Hnot _]%list_elem_of_filter. by apply Hnot. Qed.

Section Rerun.
Context (w1 w2 : World) (cfg : Config).
Hypothesis same : same_sources w1 w2 cfg.
Hypothesis stamp : loaders_stamp_source w1.
Hypothesis per_document : splitter_per_document w1.
Hypothesis keeps_metadata : splitter_keeps_metadata w1.

(** Every chunk of a run comes from a file the run loaded, and names
    that file as its source. *)
Lemma chunk_source ig docs c :
  load_documents w1 (source_directory cfg) ig = Return docs →
  c ∈ split_documents w1 chunk_size chunk_overlap docs →
  ∃ f, f ∈ filtered_files w1 (source_directory cfg) ig
       ∧ metadata c !! "source" = Some f.
Proof using stamp per_document keeps_metadata.
  intros Hl Hc. rewrite per_document in Hc.
  apply list_elem_of_In, in_flat_map in Hc as (d & Hd & Hcd).
  apply list_elem_of_In in Hd, Hcd.
  apply (load_documents_elem_of _ _ _ _ _ Hl) in Hd as (f & Hf & Hfd).
  exists f. split; [done|].
  rewrite (keeps_metadata _ _ _ _ Hcd).
  by apply (load_single_document_source w1 stamp).
Qed.

(** A file the second run still loads gave no chunk in the first, and
    gives none now. *)
Lemma unstored_file_has_no_chunk ig docs srcs f d :
  load_documents w1 (source_directory cfg) ig = Return docs →
  (∀ c s, c ∈ split_documents w1 chunk_size chunk_overlap docs →
          metadata c !! "source" = Some s → s ∈ srcs) →
  f ∈ filtered_files w2 (source_directory cfg) (ig ++ srcs) →
  load_single_document w2 f = Return d →
  split_documents w1 chunk_size chunk_overlap [d] = [].
Proof using same stamp per_document keeps_metadata.
  intros Hl Hsrcs Hf Hfd.
  rewrite <- (filtered_files_agree w1 w2 cfg _ same) in Hf.
  apply list_elem_of_filter in Hf as [Hnot Hall].
  apply (load_single_document_agree w2 w1) in Hfd;
    [|intros; symmetry; apply same].
  assert (d ∈ docs) as Hd.
  { apply (load_documents_elem_of _ _ _ _ _ Hl). exists f. split; [|done].
    apply list_elem_of_filter. split; [|done].
    intros Hig. apply Hnot, elem_of_app. by left. }
  destruct (split_documents w1 chunk_size chunk_overlap [d])
    as [|c rest] eqn:Hsplit; [done|].
  exfalso. apply Hnot, elem_of_app. right.
  assert (c ∈ split_documents w1 chunk_size chunk_overlap [d]) as Hc
    by (rewrite Hsplit; apply elem_of_cons; by left).
  apply (Hsrcs c).
  - rewrite per_document. apply list_elem_of_In, in_flat_map.
    exists d. split; by apply list_elem_of_In.
  - rewrite (keeps_metadata _ _ _ _ Hc).
    by apply (load_single_document_source w1 stamp).
Qed.

Lemma rerun_adds_no_record store :
  added_records w2 cfg (store ++ added_records w1 cfg store) = [].
Proof using same stamp per_document keeps_metadata.
  unfold added_records at 2.
  destruct (sources store) as [ig| |] eqn:Hsrc;
    [|by rewrite app_nil_r; unfold added_records; rewrite Hsrc..].
  destruct (process_documents w1 cfg ig) as [texts| |] eqn:Hfirst.
  - apply process_documents_Return in Hfirst as (docs & Hl & _ & ->).
    destruct (sources_total (split_documents w1 chunk_size chunk_overlap docs))
      as (srcs & Hsrcs & Hin).
    { intros c Hc. destruct (chunk_source _ _ _ Hl Hc) as (f & _ & Hf).
      by rewrite Hf. }
    unfold added_records, sources in *.
    rewrite (traverse_app _ _ _ _ _ Hsrc Hsrcs).
    destruct (process_documents w2 cfg (ig ++ srcs)) as [texts| |] eqn:Hsecond;
      [|done..].
    apply process_documents_Return in Hsecond as (docs' & Hl' & _ & ->).
    destruct same as (_ & _ & Hsplit). rewrite <- Hsplit, per_document.
    apply flat_map_nil. intros d Hd.
    apply (load_documents_elem_of _ _ _ _ _ Hl') in Hd as (f & Hf & Hfd).
    by eapply unstored_file_has_no_chunk.
  - rewrite app_nil_r. unfold added_records. rewrite Hsrc.
    pose proof (process_documents_returns_agree w1 w2 cfg ig same) as Hret.
    rewrite Hfirst in Hret.
    by destruct (process_documents w2 cfg ig).
  - rewrite app_nil_r. unfold added_records. rewrite Hsrc.
    pose proof (process_documents_returns_agree w1 w2 cfg ig same) as Hret.
    rewrite Hfirst in Hret.
    by destruct (process_documents w2 cfg ig).
Qed.
End Rerun.

Lemma Forall2_Permutation_l {A B} (P : A → B → Prop) l l' ys :
  l ≡ₚ l' → Forall2 P l ys → ∃ ys', Forall2 P l' ys' ∧ ys ≡ₚ ys'.
Proof.
  intros Hperm. revert ys.
  induction Hperm as [|x l l' _ IH|x x' l|l l' l'' _ IH1 _ IH2]; intros ys Hys.
  - inversion Hys; subst. by exists [].
  - inversion Hys as [|? y ? ys0 Hxy Hrest]; subst.
    destruct (IH _ Hrest) as (ys' & Hys' & Hp).
    exists (y :: ys'). split; by constructor.
  - inversion Hys as [|? y ? ys0 Hxy Hrest]; subst.
    inversion Hrest as [|? y' ? ys1 Hxy' Hrest']; subst.
    exists (y' :: y :: ys1). split; [by repeat constructor | by constructor].
  - destruct (IH1 _ Hys) as (ys' & Hys' & Hp).
    destruct (IH2 _ Hys') as (ys'' & Hys'' & Hp').
    exists ys''. split; [done | by etrans].
Qed.

(** X7. The order in which the workers finish changes the order of the
    chunks and nothing else: two runs over the same files that differ in
    completion order return the same chunks up to order. *)
Lemma process_documents_order_irrelevant w1 w2 cfg ig texts :
  same_sources w1 w2 cfg →
  splitter_per_document w1 →
  process_documents w1 cfg ig = Return texts →
  ∃ texts', process_documents w2 cfg ig = Return texts' ∧ texts ≡ₚ texts'.
Proof.
  intros Hsame Hper (docs & Hl & Hne & ->)%process_documents_Return.
  apply load_documents_Return in Hl.
  assert (schedule (completion w1) (filtered_files w1 (source_directory cfg) ig)
          ≡ₚ schedule (completion w2)
               (filtered_files w2 (source_directory cfg) ig)) as Horder.
  { rewrite !schedule_Permutation.
    by rewrite (filtered_files_agree w1 w2 cfg ig Hsame). }
  destruct (Forall2_Permutation_l _ _ _ _ Horder Hl) as (docs' & Hl' & Hperm).
  assert (load_documents w2 (source_directory cfg) ig = Return docs') as Hload.
  { apply load_documents_Return.
    eapply Forall2_impl; [exact Hl'|]. intros f d Hfd. simpl in *.
    apply (load_single_document_agree w1 w2); [apply Hsame | done]. }
  exists (split_documents w2 chunk_size chunk_overlap docs'). split.
  - unfold process_documents. rewrite Hload. simpl.
    destruct docs' as [|d' docs']; [|done].
    apply Permutation_nil_r in Hperm. by subst.
  - destruct Hsame as (_ & _ & Hsplit).
    rewrite <- Hsplit, (Hper _ _ docs), (Hper _ _ docs'). by rewrite Hperm.
Qed.

(** X8. After a run that found no valid store and built one from all
    the source files, a run over the same files that finds that store
    valid adds no record: it ends inside [process_documents] with exit
    status 0, or, when a file that gave no chunk is loaded again,
    persists the store as it found it. *)
Lemma rerun_after_fresh_build w1 w2 cfg store store1 :
  same_sources w1 w2 cfg →
  loaders_stamp_source w1 →
  splitter_per_document w1 →
  splitter_keeps_metadata w1 →
  does_vectorstore_exist w1 (persist_directory cfg) = false →
  does_vectorstore_exist w2 (persist_directory cfg) = true →
  main w1 cfg store = Return store1 →
  (main w2 cfg store1 = Exit 0 ∨ main w2 cfg store1 = Return store1)
  ∧ added_records w2 cfg store1 = []
  ∧ persisted_after (main w2 cfg store1) store1 = store1.
Proof.
  intros Hsame Hstamp Hper Hkeep Hex1 Hex2 Hrun.
  assert (process_documents w1 cfg [] = Return store1) as Hfirst.
  { unfold main in Hrun. rewrite Hex1 in Hrun.
    by destruct (process_documents w1 cfg []); simpl in Hrun. }
  assert (added_records w2 cfg store1 = []) as Hnone.
  { replace store1 with ([] ++ added_records w1 cfg []);
      [by apply rerun_adds_no_record|].
    unfold added_records. simpl. by rewrite Hfirst. }
  pose proof Hfirst as (docs & Hl & _ & Hsplit)%process_documents_Return.
  destruct (sources_total store1) as (srcs & Hsrcs & _).
  { intros c Hc. rewrite Hsplit in Hc.
    destruct (chunk_source w1 cfg Hstamp Hper Hkeep _ _ _ Hl Hc)
      as (f & _ & Hf).
    by rewrite Hf. }
  assert (returns (load_documents w2 (source_directory cfg) srcs) = true)
    as Hloads.
  { apply load_documents_returns, Forall_forall. intros f Hf.
    rewrite <- (filtered_files_agree w1 w2 cfg _ Hsame) in Hf.
    apply list_elem_of_filter in Hf as [_ Hf].
    rewrite <- (load_single_document_returns_agree w1 w2) by apply Hsame.
    assert (returns (load_documents w1 (source_directory cfg) []) = true)
      as Hall by (by rewrite Hl).
    apply load_documents_returns in Hall. rewrite Forall_forall in Hall.
    apply Hall, list_elem_of_filter. split; [|done].
    by intros ?%elem_of_nil. }
  assert (main w2 cfg store1 = Exit 0 ∨ main w2 cfg store1 = Return store1)
    as Hmain.
  { rewrite (main_ignores_stored_sources _ _ _ _ Hex2 Hsrcs).
    unfold added_records in Hnone. rewrite Hsrcs in Hnone.
    unfold process_documents in *.
    destruct (load_documents w2 (source_directory cfg) srcs)
      as [[|d docs']| |]; simpl in *; [by left| |done..].
    right. by rewrite Hnone, app_nil_r. }
  split; [done|]. split; [done|].
  by destruct Hmain as [-> | ->].
Qed.

(** C1. Two runs of [main] against an existing store, over the same
    source files read by the same libraries (loaders that record the
    path as source, a splitter that works document by document and
    keeps the metadata): the ignore list of the second run is the list
    of sources stored by then, no file on it is loaded, the second run
    adds no record, and the store it leaves is the store it found. *)
Theorem rerun_adds_nothing (w1 w2 : World) (cfg : Config)
    (store : list Document) :
  same_sources w1 w2 cfg →
  loaders_stamp_source w1 →
  splitter_per_document w1 →
  splitter_keeps_metadata w1 →
  does_vectorstore_exist w1 (persist_directory cfg) = true →
  does_vectorstore_exist w2 (persist_directory cfg) = true →
  let store1 := persisted_after (main w1 cfg store) store in
  added_records w2 cfg store1 = []
  ∧ persisted_after (main w2 cfg store1) store1 = store1
  ∧ (∀ ig, sources store1 = Return ig →
       main w2 cfg store1
       = Py.bind (process_documents w2 cfg ig)
                 (λ texts, Return (store1 ++ texts))
       ∧ ∀ f, f ∈ ig → f ∉ filtered_files w2 (source_directory cfg) ig).
Proof.
  intros Hsame Hstamp Hper Hkeep Hex1 Hex2 store1.
  assert (added_records w2 cfg store1 = []) as Hnone.
  { unfold store1. rewrite (persisted_after_main _ _ _ Hex1).
    by apply rerun_adds_no_record. }
  split; [done|]. split.
  - by rewrite (persisted_after_main _ _ _ Hex2), Hnone, app_nil_r.
  - intros ig Hig. split.
    + by apply main_ignores_stored_sources.
    + intros f Hf. by apply ignored_not_loaded.
Qed.

(** The libraries of the example worlds are as the theorem asks. *)

Lemma read_all_stamps txt n order :
  loaders_stamp_source (Examples.world txt n Examples.read_all order).
Proof.
  intros cls file_path kw docs d Hload Hd. simpl in Hload.
  unfold Examples.read_all in Hload.
  assert (docs = [Examples.note file_path "hello"]) as -> by congruence.
  apply list_elem_of_singleton in Hd as ->. simpl.
  apply lookup_singleton_eq.
Qed.

Lemma one_chunk_per_document txt n loader order :
  splitter_per_document (Examples.world txt n loader order).
Proof.
  intros size overlap docs. simpl. unfold Examples.one_chunk.
  induction docs as [|d docs IH]; [done|].
  rewrite filter_cons. simpl. rewrite <- IH.
  rewrite filter_cons, filter_nil. by case_decide.
Qed.

Lemma one_chunk_keeps_metadata txt n loader order :
  splitter_keeps_metadata (Examples.world txt n loader order).
Proof.
  intros size overlap d c. simpl. unfold Examples.one_chunk.
  rewrite filter_cons, filter_nil.
  case_decide; [|by intros ?%elem_of_nil].
  by intros ->%list_elem_of_singleton.
Qed.

Lemma rerun_adds_nothing_witness :
  let store1 :=
    persisted_after (main Examples.two_notes Examples.cfg []) [] in
  store1 = [Examples.note "docs/b.txt" "hello"; Examples.note "docs/a.txt" "hello"]
  ∧ added_records Examples.two_notes_later Examples.cfg store1 = []
  ∧ persisted_after (main Examples.two_notes_later Examples.cfg store1) store1
    = store1.
Proof.
  split; [reflexivity|].
  destruct (rerun_adds_nothing Examples.two_notes Examples.two_notes_later
              Examples.cfg []) as (Hnone & Hsame & _).
  - repeat split.
  - apply read_all_stamps.
  - apply one_chunk_per_document.
  - apply one_chunk_keeps_metadata.
  - reflexivity.
  - reflexivity.
  - split; [exact Hnone | exact Hsame].
Defined.

End IngestFacts.

(** ** Properties of the /verify route *)

Module ApprovalFacts.
Import Documents.

Section Route.
Context (env : Env) (checker_in : DocumentUpdate) (current_user now : nat).
Context (store : Store).

Let id := upd_id checker_in.
Let run := verify_documents env checker_in current_user now store.

(** The four ways through the route. *)

Lemma verify_not_found :
  db store !! id = None →
  run = (HTTPError {| status_code := 400; detail := "Document not found!" |},
         (store, [])).
Proof.
  intros Hdoc. unfold run, verify_documents, verify_documents_try, bind,
    get_by_id. simpl. fold id. by rewrite Hdoc.
Qed.

Lemma verify_approved doc :
  db store !! id = Some doc →
  upd_status checker_in = status_value env APPROVED →
  let obj_in := decision APPROVED checker_in current_user now in
  run = (except_clauses ((service_for env doc).2 (recorded id obj_in store)).1,
         (((service_for env doc).2 (recorded id obj_in store)).2,
          [EvUpdate id obj_in; (service_for env doc).1])).
Proof.
  intros Hdoc Hst obj_in.
  unfold run, verify_documents, verify_documents_try, bind, get_by_id.
  simpl. fold id. rewrite Hdoc. rewrite decide_True by done.
  unfold service_for, quarantined, update, dispatch, recorded, obj_in,
    decision. simpl. fold id.
  destruct (doc_type_id doc) as [|[|[|[|n]]]]; simpl;
    match goal with
    | |- context [?service env ?path ?s] =>
        by destruct (service env path s) as [r s']
    end.
Qed.

Lemma verify_rejected doc :
  db store !! id = Some doc →
  upd_status checker_in ≠ status_value env APPROVED →
  upd_status checker_in = status_value env REJECTED →
  let obj_in := decision REJECTED checker_in current_user now in
  let path := quarantined env doc in
  run = if decide (path ∈ files store)
        then (Ok NoContent,
              ({| db := db (recorded id obj_in store);
                  files := files store ∖ {[path]} |},
               [EvUpdate id obj_in; EvRemove path]))
        else (HTTPError
                {| status_code := 500;
                   detail := "Internal Server Error: Unable to upload file." |},
              (recorded id obj_in store,
               [EvUpdate id obj_in; EvRemove path])).
Proof.
  intros Hdoc Hnot Hst obj_in path.
  unfold run, verify_documents, verify_documents_try, bind, get_by_id.
  simpl. fold id. rewrite Hdoc.
  rewrite decide_False by done. rewrite decide_True by done.
  unfold update, os_remove, bind, emit, path, quarantined. simpl. fold id.
  by destruct (decide (_ ∈ files store)).
Qed.

Lemma verify_other doc :
  db store !! id = Some doc →
  upd_status checker_in ≠ status_value env APPROVED →
  upd_status checker_in ≠ status_value env REJECTED →
  run = (HTTPError {| status_code := 400;
                      detail := "Cannot change status to PENDING!" |},
         (store, [])).
Proof.
  intros Hdoc Hna Hnr.
  unfold run, verify_documents, verify_documents_try, bind, get_by_id.
  simpl. fold id. rewrite Hdoc.
  by rewrite !decide_False by done.
Qed.

Lemma service_for_file_effect doc :
  file_effect (service_for env doc).1 = true.
Proof.
  unfold service_for. by destruct (doc_type_id doc) as [|[|[|[|n]]]].
Qed.

(** Every run attempts nothing, or the record update and then one
    effect on the quarantined file. *)
Lemma verify_trace :
  trace_of run = []
  ∨ ∃ doc st ev,
      db store !! id = Some doc
      ∧ trace_of run
        = [EvUpdate id (decision st checker_in current_user now); ev]
      ∧ (st = APPROVED ∧ upd_status checker_in = status_value env APPROVED
           ∧ ev = (service_for env doc).1
         ∨ st = REJECTED ∧ upd_status checker_in = status_value env REJECTED
           ∧ ev = EvRemove (quarantined env doc)).
Proof.
  destruct (db store !! id) as [doc|] eqn:Hdoc;
    [|left; by rewrite verify_not_found].
  destruct (decide (upd_status checker_in = status_value env APPROVED))
    as [Ha|Hna].
  { right. exists doc, APPROVED, (service_for env doc).1.
    rewrite (verify_approved doc Hdoc Ha). simpl. by eauto 10. }
  destruct (decide (upd_status checker_in = status_value env REJECTED))
    as [Hr|Hnr].
  - right. exists doc, REJECTED, (EvRemove (quarantined env doc)).
    rewrite (verify_rejected doc Hdoc Hna Hr).
    split; [done|]. split; [by case_decide|]. by right.
  - left. by rewrite (verify_other doc Hdoc Hna Hnr).
Qed.
End Route.

(** The record of the decision is in the store that [update] leaves,
    and nothing else of the store has changed. *)
Lemma recorded_lookup (id : nat) (obj_in : DocumentCheckerUpdate)
    (store : Store) (doc : DocumentRecord) :
  db store !! id = Some doc →
  db (recorded id obj_in store) !! id = Some (apply_update obj_in doc)
  ∧ (∀ j, j ≠ id → db (recorded id obj_in store) !! j = db store !! j)
  ∧ files (recorded id obj_in store) = files store.
Proof.
  intros Hdoc. simpl. split; [by rewrite lookup_alter_eq, Hdoc|].
  split; [|done]. intros j Hj. by rewrite lookup_alter_ne.
Qed.

(** C3. In every run of the route, an effect on the quarantined file
    (ingestion, OCR or deletion) comes second, after the update of the
    document's record with the decision, and nothing follows it. The
    update is committed when the effect is attempted. On an APPROVED
    target the ingestion or OCR service is called on the store in which
    the record carries the decision (status, verifier, time, enabled
    flag) and every other record and the files are as they were, and
    the run ends as the service does. On a REJECTED target the deletion
    is attempted on that store: the record carries the decision in the
    store the run leaves, whether the file was there and was deleted or
    was missing and the run ends with the 500 error. *)
Theorem record_update_precedes_file_effect (env : Env)
    (checker_in : DocumentUpdate) (current_user now : nat) (store : Store) :
  let run := verify_documents env checker_in current_user now store in
  let id := upd_id checker_in in
  (∀ pre ev post,
     trace_of run = pre ++ ev :: post → file_effect ev = true →
     ∃ doc st,
       db store !! id = Some doc
       ∧ pre = [EvUpdate id (decision st checker_in current_user now)]
       ∧ post = []
       ∧ (st = APPROVED ∧ ev = (service_for env doc).1
          ∨ st = REJECTED ∧ ev = EvRemove (quarantined env doc)))
  ∧ (∀ doc, db store !! id = Some doc →
       upd_status checker_in = status_value env APPROVED →
       let obj_in := decision APPROVED checker_in current_user now in
       let committed := recorded id obj_in store in
       let served := (service_for env doc).2 committed in
       db committed !! id = Some (apply_update obj_in doc)
       ∧ (∀ j, j ≠ id → db committed !! j = db store !! j)
       ∧ files committed = files store
       ∧ trace_of run = [EvUpdate id obj_in; (service_for env doc).1]
       ∧ answer run = except_clauses served.1
       ∧ store_of run = served.2)
  ∧ (∀ doc, db store !! id = Some doc →
       upd_status checker_in ≠ status_value env APPROVED →
       upd_status checker_in = status_value env REJECTED →
       let obj_in := decision REJECTED checker_in current_user now in
       let committed := recorded id obj_in store in
       let path := quarantined env doc in
       let deletion :=
         bind (os_remove path) (λ _, ret NoContent)
           (committed, [EvUpdate id obj_in]) in
       run = (except_clauses deletion.1, deletion.2)
       ∧ trace_of run = [EvUpdate id obj_in; EvRemove path]
       ∧ db (store_of run) !! id = Some (apply_update obj_in doc)
       ∧ (∀ j, j ≠ id → db (store_of run) !! j = db store !! j)
       ∧ (path ∈ files store →
          answer run = Ok NoContent
          ∧ files (store_of run) = files store ∖ {[path]})
       ∧ (path ∉ files store →
          answer run
          = HTTPError
              {| status_code := 500;
                 detail := "Internal Server Error: Unable to upload file." |}
          ∧ files (store_of run) = files store)).
Proof.
  intros run id. subst run id. split; [|split].
  - intros pre ev post Htrace Hev.
    destruct (verify_trace env checker_in current_user now store)
      as [Hnil|(doc & st & ev' & Hdoc & Hrun & Hcase)].
    { rewrite Hnil in Htrace. by destruct pre. }
    rewrite Hrun in Htrace. exists doc, st.
    destruct pre as [|a [|b pre]]; simpl in Htrace.
    + injection Htrace as <- _. discriminate Hev.
    + injection Htrace as -> -> <-.
      repeat split; [done|].
      destruct Hcase as [(-> & _ & ->)|(-> & _ & ->)]; [left|right]; done.
    + injection Htrace as _ _ Hrest. by destruct pre.
  - intros doc Hdoc Hst obj_in committed served.
    destruct (recorded_lookup (upd_id checker_in) obj_in store doc Hdoc)
      as (Hrec & Hothers & Hfiles).
    split; [done|]. split; [done|]. split; [done|].
    by rewrite (verify_approved env checker_in current_user now store doc).
  - intros doc Hdoc Hna Hst obj_in committed path deletion.
    destruct (recorded_lookup (upd_id checker_in) obj_in store doc Hdoc)
      as (Hrec & Hothers & Hfiles).
    rewrite (verify_rejected env checker_in current_user now store doc)
      by done.
    subst deletion. unfold os_remove, bind, emit. cbn [fst snd].
    fold obj_in. fold path. fold committed.
    change (files committed) with (files store).
    destruct (decide (path ∈ files store)) as [Hfile|Hgone];
      unfold trace_of, answer, store_of; cbn [fst snd db files fmap];
      repeat split; try done.
Qed.

Lemma record_update_precedes_file_effect_witness :
  let run :=
    verify_documents ApprovalExamples.env (ApprovalExamples.request "APPROVED")
      5 200 ApprovalExamples.uploaded in
  let obj_in :=
    decision APPROVED (ApprovalExamples.request "APPROVED") 5 200 in
  let rejection :=
    verify_documents ApprovalExamples.env (ApprovalExamples.request "REJECTED")
      5 200 ApprovalExamples.approved_file_gone in
  (trace_of run = [EvUpdate 7 obj_in; EvIngest "unchecked/report.csv"]
   ∧ store_of run = recorded 7 obj_in ApprovalExamples.uploaded)
  ∧ (∃ doc st,
       db ApprovalExamples.uploaded !! 7 = Some doc
       ∧ [EvUpdate 7 obj_in]
         = [EvUpdate 7
              (decision st (ApprovalExamples.request "APPROVED") 5 200)]
       ∧ (st = APPROVED
            ∧ EvIngest "unchecked/report.csv"
              = (service_for ApprovalExamples.env doc).1
          ∨ st = REJECTED
            ∧ EvIngest "unchecked/report.csv"
              = EvRemove (quarantined ApprovalExamples.env doc)))
  ∧ (trace_of rejection
     = [EvUpdate 7
          (decision REJECTED (ApprovalExamples.request "REJECTED") 5 200);
        EvRemove "unchecked/report.csv"]
     ∧ status <$> db (store_of rejection) !! 7 = Some REJECTED).
Proof.
  intros run obj_in rejection.
  destruct (record_update_precedes_file_effect ApprovalExamples.env
              (ApprovalExamples.request "APPROVED") 5 200
              ApprovalExamples.uploaded) as (Hbefore & Happroved & _).
  destruct (record_update_precedes_file_effect ApprovalExamples.env
              (ApprovalExamples.request "REJECTED") 5 200
              ApprovalExamples.approved_file_gone) as (_ & _ & Hrejected).
  split; [|split].
  - destruct (Happroved (ApprovalExamples.report PENDING))
      as (_ & _ & _ & Htrace & _ & Hstore); [reflexivity..|].
    split; [exact Htrace | exact Hstore].
  - destruct (Hbefore [EvUpdate 7 obj_in] (EvIngest "unchecked/report.csv") [])
      as (doc & st & Hdoc & Hpre & _ & Hcase); [reflexivity..|].
    exists doc, st. split; [exact Hdoc|]. split; [exact Hpre | exact Hcase].
  - destruct (Hrejected
                (apply_update
                   (decision APPROVED (ApprovalExamples.request "APPROVED")
                      3 100)
                   (ApprovalExamples.report PENDING)))
      as (_ & Htrace & Hrec & _); [reflexivity | discriminate | reflexivity |].
    split; [exact Htrace|]. exact (f_equal (fmap status) Hrec).
Defined.

(** C4. A request whose target status is neither the APPROVED nor the
    REJECTED value is answered with a 400 error ("Cannot change status to
    PENDING!" for a known document), the store is left as it was, and no
    effect is attempted: no record update, no ingestion, no deletion. *)
Theorem other_target_is_refused (env : Env) (checker_in : DocumentUpdate)
    (current_user now : nat) (store : Store) :
  upd_status checker_in ≠ status_value env APPROVED →
  upd_status checker_in ≠ status_value env REJECTED →
  verify_documents env checker_in current_user now store
  = (HTTPError
       {| status_code := 400;
          detail := match db store !! upd_id checker_in with
                    | Some _ => "Cannot change status to PENDING!"
                    | None => "Document not found!"
                    end |},
     (store, [])).
Proof.
  intros Hna Hnr.
  destruct (db store !! upd_id checker_in) as [doc|] eqn:Hdoc.
  - by apply (verify_other env checker_in current_user now store doc).
  - by apply verify_not_found.
Qed.

Lemma other_target_is_refused_witness :
  verify_documents ApprovalExamples.env (ApprovalExamples.request "PENDING")
    5 200 ApprovalExamples.uploaded
  = (HTTPError {| status_code := 400;
                  detail := "Cannot change status to PENDING!" |},
     (ApprovalExamples.uploaded, [])).
Proof.
  apply (other_target_is_refused ApprovalExamples.env
           (ApprovalExamples.request "PENDING") 5 200
           ApprovalExamples.uploaded); discriminate.
Defined.

(** C5 fails for document 7, approved earlier, whose quarantined file is
    gone: approving it again writes the new decision on the record and
    calls ingestion; the failure that comes back is the route's general
    500 error. *)
Lemma reapproval_without_file_is_recorded :
  let store := ApprovalExamples.approved_file_gone in
  let run :=
    verify_documents ApprovalExamples.env (ApprovalExamples.request "APPROVED")
      5 200 store in
  (∃ doc, db store !! 7 = Some doc ∧ terminal doc = true
          ∧ quarantined ApprovalExamples.env doc ∉ files store)
  ∧ answer run
    = HTTPError {| status_code := 500;
                   detail := "Internal Server Error: Unable to upload file." |}
  ∧ trace_of run
    = [EvUpdate 7 (decision APPROVED (ApprovalExamples.request "APPROVED") 5 200);
       EvIngest "unchecked/report.csv"]
  ∧ verified_by <$> db (store_of run) !! 7 = Some (Some 5)
  ∧ verified_by <$> db store !! 7 = Some (Some 3).
Proof.
  intros store run. split; [|by repeat split].
  eexists. split; [reflexivity|]. split; [reflexivity|].
  simpl. apply not_elem_of_empty.
Qed.

(** C5, as the code has it. The route does not look for the quarantined
    file before it writes the decision, whatever the status of the
    document. On an APPROVED target the record is updated and the
    ingestion or OCR service is called on the store so updated; the
    answer is the service's, a failure other than an HTTP error becoming
    the 500 error. On a REJECTED target the record is updated and the
    file that the path of the record's file name names is deleted: when
    it is there, the answer is empty and the file is gone; when it is
    missing, the deletion fails and the answer is the 500 error, the
    record staying updated. *)
Theorem decision_is_recorded_before_file_is_looked_for (env : Env)
    (checker_in : DocumentUpdate) (current_user now : nat) (store : Store)
    (doc : DocumentRecord) :
  let id := upd_id checker_in in
  let run := verify_documents env checker_in current_user now store in
  db store !! id = Some doc →
  (upd_status checker_in = status_value env APPROVED →
     let obj_in := decision APPROVED checker_in current_user now in
     let served := (service_for env doc).2 (recorded id obj_in store) in
     db (recorded id obj_in store) !! id = Some (apply_update obj_in doc)
     ∧ run = (except_clauses served.1,
              (served.2, [EvUpdate id obj_in; (service_for env doc).1])))
  ∧ (upd_status checker_in ≠ status_value env APPROVED →
     upd_status checker_in = status_value env REJECTED →
     quarantined env doc ∉ files store →
     let obj_in := decision REJECTED checker_in current_user now in
     db (recorded id obj_in store) !! id = Some (apply_update obj_in doc)
     ∧ run = (HTTPError
                {| status_code := 500;
                   detail := "Internal Server Error: Unable to upload file." |},
              (recorded id obj_in store,
               [EvUpdate id obj_in; EvRemove (quarantined env doc)])))
  ∧ (upd_status checker_in ≠ status_value env APPROVED →
     upd_status checker_in = status_value env REJECTED →
     quarantined env doc ∈ files store →
     let obj_in := decision REJECTED checker_in current_user now in
     db (recorded id obj_in store) !! id = Some (apply_update obj_in doc)
     ∧ run = (Ok NoContent,
              ({| db := db (recorded id obj_in store);
                  files := files store ∖ {[quarantined env doc]} |},
               [EvUpdate id obj_in; EvRemove (quarantined env doc)]))).
Proof.
  intros id run Hdoc.
  assert (∀ obj_in,
            db (recorded id obj_in store) !! id
            = Some (apply_update obj_in doc)) as Hrec.
  { intros obj_in. simpl. by rewrite lookup_alter_eq, Hdoc. }
  split; [|split].
  - intros Hst obj_in served. split; [apply Hrec|].
    by apply verify_approved.
  - intros Hna Hst Hgone obj_in. split; [apply Hrec|]. unfold run.
    rewrite (verify_rejected env checker_in current_user now store doc)
      by done.
    by rewrite decide_False.
  - intros Hna Hst Hfile obj_in. split; [apply Hrec|]. unfold run.
    rewrite (verify_rejected env checker_in current_user now store doc)
      by done.
    by rewrite decide_True.
Qed.

Lemma decision_is_recorded_before_file_is_looked_for_witness :
  let store := ApprovalExamples.approved_file_gone in
  let obj_in :=
    decision REJECTED (ApprovalExamples.request "REJECTED") 5 200 in
  (verify_documents ApprovalExamples.env (ApprovalExamples.request "REJECTED")
     5 200 store
   = (HTTPError
        {| status_code := 500;
           detail := "Internal Server Error: Unable to upload file." |},
      (recorded 7 obj_in store,
       [EvUpdate 7 obj_in; EvRemove "unchecked/report.csv"]))
   ∧ status <$> db (recorded 7 obj_in store) !! 7 = Some REJECTED)
  ∧ answer
      (verify_documents ApprovalExamples.env
         (ApprovalExamples.request "APPROVED") 5 200 store)
    = HTTPError
        {| status_code := 500;
           detail := "Internal Server Error: Unable to upload file." |}
  ∧ verify_documents ApprovalExamples.env (ApprovalExamples.request "REJECTED")
      5 200 ApprovalExamples.uploaded_with_dot
    = (Ok NoContent,
       ({| db := db (recorded 7 obj_in ApprovalExamples.uploaded_with_dot);
           files := files ApprovalExamples.uploaded_with_dot
                    ∖ {[ "unchecked/report.csv" ]} |},
        [EvUpdate 7 obj_in; EvRemove "unchecked/report.csv"])).
Proof.
  intros store obj_in.
  destruct (decision_is_recorded_before_file_is_looked_for
              ApprovalExamples.env (ApprovalExamples.request "REJECTED")
              5 200 store
              (apply_update
                 (decision APPROVED (ApprovalExamples.request "APPROVED") 3 100)
                 (ApprovalExamples.report PENDING)))
    as (_ & Hrejected & _); [reflexivity|].
  destruct Hrejected as [Hrec Hrun];
    [discriminate | reflexivity | apply not_elem_of_empty |].
  destruct (decision_is_recorded_before_file_is_looked_for
              ApprovalExamples.env (ApprovalExamples.request "APPROVED")
              5 200 store
              (apply_update
                 (decision APPROVED (ApprovalExamples.request "APPROVED") 3 100)
                 (ApprovalExamples.report PENDING)))
    as (Happroved & _); [reflexivity|].
  destruct Happroved as [_ Hrun']; [reflexivity|].
  destruct (decision_is_recorded_before_file_is_looked_for
              ApprovalExamples.env (ApprovalExamples.request "REJECTED")
              5 200 ApprovalExamples.uploaded_with_dot
              {| filename := "./report.csv"; doc_type_id := 1;
                 status := PENDING; is_enabled := false;
                 verified_at := None; verified_by := None |})
    as (_ & _ & Hpresent); [reflexivity|].
  destruct Hpresent as [_ Hrun''];
    [discriminate | reflexivity | vm_compute; reflexivity |].
  split; [split|split].
  - exact Hrun.
  - exact (f_equal (fmap status) Hrec).
  - exact (f_equal answer Hrun').
  - exact Hrun''.
Defined.

End ApprovalFacts.

(** ** More properties of ingest.py *)

Module IngestMoreFacts.
Import Ingest IngestMore.

(** *** MyElmLoader *)

(** The fallback lets out what the first call ends in, unless that is
    a ValueError with the message of the missing HTML part: then it lets
    out what the second call ends in. *)
Lemma plain_text_fallback_cases (w : World) (file_path : string)
    (kw : kwargs) (r : outcome (list Document)) :
  plain_text_fallback w file_path kw = r
  ↔ (library_load w UnstructuredEmailLoader file_path kw = r
     ∧ ∀ e, r = Raise e →
         is_ValueError (exn_cls e)
         && contains "text/html content not found in email" (exn_str e)
         = false)
    ∨ ∃ e,
        library_load w UnstructuredEmailLoader file_path kw = Raise e
        ∧ is_ValueError (exn_cls e) = true
        ∧ contains "text/html content not found in email" (exn_str e) = true
        ∧ library_load w UnstructuredEmailLoader file_path
            (set_kwarg "content_source" "text/plain" kw)
          = r.
Proof.
  unfold plain_text_fallback.
  destruct (library_load w UnstructuredEmailLoader file_path kw)
    as [docs|e|c] eqn:Hfirst.
  - split.
    + intros <-. left. split; [done|]. by intros e [=].
    + by intros [[<- _]|(e & [=] & _)].
  - destruct (is_ValueError (exn_cls e)) eqn:Hcls.
    + destruct (contains _ (exn_str e)) eqn:Hhtml.
      * split.
        -- intros <-. right. by exists e.
        -- intros [[<- Hnot]|(e' & [= <-] & _ & _ & <-)]; [|done].
           specialize (Hnot e eq_refl). by rewrite Hcls, Hhtml in Hnot.
      * split.
        -- intros <-. left. split; [done|]. intros e' [= <-].
           by rewrite Hcls, Hhtml.
        -- intros [[<- _]|(e' & [= <-] & _ & Hhtml' & _)]; [done|congruence].
    + split.
      * intros <-. left. split; [done|]. intros e' [= <-]. by rewrite Hcls.
      * intros [[<- _]|(e' & [= <-] & Hcls' & _)]; [done|congruence].
  - split.
    + intros <-. left. split; [done|]. by intros e [=].
    + by intros [[<- _]|(e & [=] & _)].
Qed.

(** X1. [MyElmLoader.load] returns documents in two cases only: the
    e-mail library returns them at once, or it raises a ValueError
    "text/html content not found in email" and, called again with the
    content source set to text/plain, returns them. *)
Theorem MyElmLoader_load_returns (w : World) (file_path : string)
    (kw : kwargs) (docs : list Document) :
  MyElmLoader_load w file_path kw = Return docs
  ↔ library_load w UnstructuredEmailLoader file_path kw = Return docs
    ∨ ∃ e,
        library_load w UnstructuredEmailLoader file_path kw = Raise e
        ∧ is_ValueError (exn_cls e) = true
        ∧ contains "text/html content not found in email" (exn_str e) = true
        ∧ library_load w UnstructuredEmailLoader file_path
            (set_kwarg "content_source" "text/plain" kw)
          = Return docs.
Proof.
  unfold MyElmLoader_load.
  assert (with_file_path w file_path (plain_text_fallback w file_path kw)
          = Return docs
          ↔ plain_text_fallback w file_path kw = Return docs) as ->.
  { by destruct (plain_text_fallback w file_path kw). }
  rewrite plain_text_fallback_cases. split.
  - intros [[Hfirst _]|Hretry]; [by left | by right].
  - intros [Hfirst|Hretry]; [left | by right].
    split; [done|]. by intros e [=].
Qed.

(** X2. An exception leaves [MyElmLoader.load] exactly when the e-mail
    library raised one that the fallback does not take up: in its first
    call, other than a ValueError with the message of the missing HTML
    part, or in the plain-text retry after such a ValueError. What
    leaves is not that exception [e0] but what raising a new instance of
    its class, made from the one string "<file path>: <str(e0)>", lets
    out. *)
Theorem MyElmLoader_load_raises (w : World) (file_path : string)
    (kw : kwargs) (e : exn) :
  MyElmLoader_load w file_path kw = Raise e
  ↔ ∃ e0,
      e = new_exception w (exn_cls e0) (file_path +:+ ": " +:+ exn_str e0)
      ∧ (library_load w UnstructuredEmailLoader file_path kw = Raise e0
         ∧ is_ValueError (exn_cls e0)
           && contains "text/html content not found in email" (exn_str e0)
           = false
         ∨ ∃ e1,
             library_load w UnstructuredEmailLoader file_path kw = Raise e1
             ∧ is_ValueError (exn_cls e1) = true
             ∧ contains "text/html content not found in email" (exn_str e1)
               = true
             ∧ library_load w UnstructuredEmailLoader file_path
                 (set_kwarg "content_source" "text/plain" kw)
               = Raise e0).
Proof.
  unfold MyElmLoader_load.
  assert (with_file_path w file_path (plain_text_fallback w file_path kw)
          = Raise e
          ↔ ∃ e0, plain_text_fallback w file_path kw = Raise e0
                  ∧ e = new_exception w (exn_cls e0)
                          (file_path +:+ ": " +:+ exn_str e0)) as ->.
  { destruct (plain_text_fallback w file_path kw) as [docs|e0|c]; simpl.
    - split; [done|]. by intros (e0 & [=] & _).
    - split.
      + intros [= <-]. by exists e0.
      + by intros (e0' & [= <-] & ->).
    - split; [done|]. by intros (e0 & [=] & _). }
  split.
  - intros (e0 & Hfallback & ->). exists e0. split; [done|].
    apply plain_text_fallback_cases in Hfallback
      as [[Hfirst Hnot]|(e1 & Hfirst & Hcls & Hhtml & Hretry)].
    + left. split; [done|]. by apply Hnot.
    + right. by exists e1.
  - intros (e0 & -> & Hcase). exists e0. split; [|done].
    apply plain_text_fallback_cases.
    destruct Hcase as [[Hfirst Hnot]|(e1 & Hfirst & Hcls & Hhtml & Hretry)].
    + left. split; [done|]. by intros e' [= <-].
    + right. by exists e1.
Qed.

(** With the exception classes of the examples: a file that cannot be
    opened is reported with its path; a byte that cannot be decoded is
    reported as a TypeError, its class taking five arguments. *)
Lemma MyElmLoader_load_unreadable :
  MyElmLoader_load (Examples.world [] 3 unreadable_mail []) "docs/a.eml" []
  = Raise (Exn FileNotFoundError "docs/a.eml: No such file or directory")
  ∧ MyElmLoader_load (Examples.world [] 3 undecodable_mail []) "docs/a.eml" []
    = Raise (Exn (OtherError "TypeError")
               "function takes exactly 5 arguments (1 given)").
Proof. by split. Qed.

(** *** Extensions *)

Lemma after_last_dot_suffix (base e : string) :
  after_last_dot e = None →
  after_last_dot (base +:+ String "." e) = Some e.
Proof.
  intros Hdotless. induction base as [|c base IH]; simpl.
  - by rewrite Hdotless.
  - by rewrite IH.
Qed.

Lemma extension_suffix (base e : string) :
  after_last_dot e = None →
  extension (base +:+ String "." e) = String "." e.
Proof.
  intros Hdotless. unfold extension, rsplit_dot_last.
  by rewrite (after_last_dot_suffix base e Hdotless).
Qed.

(** The registered extensions are a dot followed by a name without
    dots, so each is the extension of every path that ends in it. *)
Lemma registered_extension_of_suffix (base ext : string)
    (entry : loader_class * kwargs) :
  dict_get LOADER_MAPPING ext = Some entry →
  extension (base +:+ ext) = ext.
Proof.
  unfold LOADER_MAPPING. simpl.
  repeat (destruct (decide _) as [<-|_];
          [intros _; by apply extension_suffix|]).
  done.
Qed.

(** X3. Whatever comes before it, a path that ends in a registered
    extension is loaded with the class and the arguments registered for
    that extension; dots earlier in the path do not matter. *)
Theorem registered_suffix_selects (w : World) (base ext : string)
    (cls : loader_class) (args : kwargs) :
  dict_get LOADER_MAPPING ext = Some (cls, args) →
  load_single_document w (base +:+ ext)
  = Py.bind (load w cls (base +:+ ext) args) first.
Proof.
  intros Hreg. unfold load_single_document.
  by rewrite (registered_extension_of_suffix base ext _ Hreg), Hreg.
Qed.

Lemma registered_suffix_selects_witness :
  load_single_document Examples.two_notes ("backup.2023/notes.v1" +:+ ".md")
  = Return (Examples.note "backup.2023/notes.v1.md" "hello").
Proof.
  rewrite (registered_suffix_selects Examples.two_notes "backup.2023/notes.v1"
             ".md" UnstructuredMarkdownLoader []); reflexivity.
Defined.

Lemma load_single_document_upper_case_witness :
  load_single_document Examples.two_notes "docs/REPORT.PDF"
  = Raise (Exn ValueError "Unsupported file extension '.PDF'").
Proof.
  apply (IngestFacts.load_single_document_upper_case Examples.two_notes
           "docs/REPORT.PDF").
  reflexivity.
Defined.

(** X5. When glob answers each pattern with paths that end in the
    pattern's extension, every candidate file of [load_documents] has a
    registered extension: it is loaded with the class registered for the
    extension it ends in, and "Unsupported file extension" is not raised
    for it. *)
Theorem candidates_have_registered_extension (w : World)
    (source_dir file_path : string) :
  glob_answers_pattern w source_dir →
  file_path ∈ all_files w source_dir →
  ∃ cls args,
    dict_get LOADER_MAPPING (extension file_path) = Some (cls, args)
    ∧ load_single_document w file_path
      = Py.bind (load w cls file_path args) first.
Proof.
  intros Hglob Hin. unfold all_files in Hin.
  apply list_elem_of_In, in_flat_map in Hin as ([ext [cls args]] & Hentry & Hf).
  apply list_elem_of_In in Hentry, Hf. simpl in Hf.
  assert (dict_get LOADER_MAPPING ext = Some (cls, args)) as Hreg.
  { unfold LOADER_MAPPING in Hentry.
    repeat (apply elem_of_cons in Hentry as [[= -> -> ->]|Hentry];
            [reflexivity|]).
    by apply elem_of_nil in Hentry. }
  destruct (Hglob ext (cls, args) file_path Hreg Hf) as [base ->].
  exists cls, args. unfold load_single_document.
  by rewrite (registered_extension_of_suffix base ext _ Hreg), Hreg.
Qed.

Lemma two_notes_glob_answers_pattern :
  glob_answers_pattern Examples.two_notes "docs".
Proof.
  intros ext entry file_path Hreg. unfold LOADER_MAPPING in Hreg.
  simpl in Hreg.
  repeat (destruct (decide _) as [<-|_] in Hreg;
          [try (by intros ?%elem_of_nil)|]); [|done].
  intros [->|[->|Hnone%elem_of_nil]%elem_of_cons]%elem_of_cons; [..|done].
  - by exists "docs/a".
  - by exists "docs/b".
Qed.

Lemma candidates_have_registered_extension_witness :
  ∃ cls args,
    dict_get LOADER_MAPPING (extension "docs/b.txt") = Some (cls, args)
    ∧ load_single_document Examples.two_notes "docs/b.txt"
      = Py.bind (load Examples.two_notes cls "docs/b.txt" args) first.
Proof.
  apply (candidates_have_registered_extension Examples.two_notes "docs").
  - apply two_notes_glob_answers_pattern.
  - vm_compute. right. left.
Defined.

(** *** main *)

(** X6. A run of [main] over an existing store that gets as far as
    persisting keeps every record it found, in place, and appends chunks
    only: each of them names as its source a candidate file that no
    stored record named. *)
Theorem main_appends_only_new (w : World) (cfg : Config)
    (store store' : list Document) :
  loaders_stamp_source w →
  splitter_per_document w →
  splitter_keeps_metadata w →
  does_vectorstore_exist w (persist_directory cfg) = true →
  main w cfg store = Return store' →
  ∃ ig texts,
    sources store = Return ig
    ∧ store' = store ++ texts
    ∧ ∀ c, c ∈ texts →
        ∃ f, metadata c !! "source" = Some f
             ∧ f ∈ all_files w (source_directory cfg)
             ∧ f ∉ ig.
Proof.
  intros Hstamp Hper Hkeep Hex. unfold main. rewrite Hex.
  destruct (sources store) as [ig| |]; simpl; [|done..].
  destruct (process_documents w cfg ig) as [texts| |] eqn:Hrun; simpl; [|done..].
  intros [= <-]. exists ig, texts. split; [done|]. split; [done|].
  apply IngestFacts.process_documents_Return in Hrun as (docs & Hl & _ & ->).
  intros c Hc.
  destruct (IngestFacts.chunk_source w cfg Hstamp Hper Hkeep ig docs c Hl Hc)
    as (f & Hf & Hsource).
  apply list_elem_of_filter in Hf as [Hnew Hcandidate]. by exists f.
Qed.

Lemma main_appends_only_new_witness :
  ∃ ig texts,
    sources [Examples.note "docs/a.txt" "hello"] = Return ig
    ∧ [Examples.note "docs/a.txt" "hello"; Examples.note "docs/b.txt" "hello"]
      = [Examples.note "docs/a.txt" "hello"] ++ texts
    ∧ ∀ c, c ∈ texts →
        ∃ f, metadata c !! "source" = Some f
             ∧ f ∈ all_files Examples.two_notes "docs"
             ∧ f ∉ ig.
Proof.
  apply (main_appends_only_new Examples.two_notes Examples.cfg
           [Examples.note "docs/a.txt" "hello"]).
  - apply IngestFacts.read_all_stamps.
  - apply IngestFacts.one_chunk_per_document.
  - apply IngestFacts.one_chunk_keeps_metadata.
  - reflexivity.
  - reflexivity.
Defined.

Lemma sources_unsourced (store : list Document) (d : Document) :
  d ∈ store → metadata d !! "source" = None →
  sources store = Raise (Exn KeyError "'source'").
Proof.
  intros Hd Hnone. unfold sources.
  induction store as [|x store IH]; [by apply elem_of_nil in Hd|].
  simpl. unfold source_of at 1.
  destruct (metadata x !! "source") as [s|] eqn:Hx; simpl; [|done].
  apply elem_of_cons in Hd as [->|Hd]; [congruence|].
  by rewrite (IH Hd).
Qed.

(** X9. When a record of the existing store has no ["source"] in its
    metadata, [main] ends with the KeyError of the lookup: no file is
    loaded and the store is left as it was. *)
Theorem main_unsourced_record (w : World) (cfg : Config)
    (store : list Document) (d : Document) :
  does_vectorstore_exist w (persist_directory cfg) = true →
  d ∈ store →
  metadata d !! "source" = None →
  main w cfg store = Raise (Exn KeyError "'source'")
  ∧ persisted_after (main w cfg store) store = store.
Proof.
  intros Hex Hd Hnone. unfold main.
  by rewrite Hex, (sources_unsourced store d Hd Hnone).
Qed.

Lemma main_unsourced_record_witness :
  main one_note Examples.cfg store_with_unsourced_record
  = Raise (Exn KeyError "'source'")
  ∧ persisted_after (main one_note Examples.cfg store_with_unsourced_record)
      store_with_unsourced_record
    = store_with_unsourced_record.
Proof.
  apply (main_unsourced_record one_note Examples.cfg
           store_with_unsourced_record (Doc "orphan" ∅)).
  - reflexivity.
  - right. left.
  - reflexivity.
Defined.

Lemma process_documents_order_irrelevant_witness :
  ∃ texts',
    process_documents Examples.two_notes_later Examples.cfg [] = Return texts'
    ∧ [Examples.note "docs/b.txt" "hello"; Examples.note "docs/a.txt" "hello"]
      ≡ₚ texts'.
Proof.
  apply (IngestFacts.process_documents_order_irrelevant
           Examples.two_notes Examples.two_notes_later Examples.cfg []).
  - repeat split.
  - apply IngestFacts.one_chunk_per_document.
  - reflexivity.
Defined.

Lemma rerun_after_fresh_build_witness :
  (main one_note Examples.cfg [Examples.note "docs/a.txt" "hello"] = Exit 0
   ∨ main one_note Examples.cfg [Examples.note "docs/a.txt" "hello"]
     = Return [Examples.note "docs/a.txt" "hello"])
  ∧ added_records one_note Examples.cfg [Examples.note "docs/a.txt" "hello"]
    = []
  ∧ persisted_after
      (main one_note Examples.cfg [Examples.note "docs/a.txt" "hello"])
      [Examples.note "docs/a.txt" "hello"]
    = [Examples.note "docs/a.txt" "hello"].
Proof.
  apply (IngestFacts.rerun_after_fresh_build Examples.three_index_files
           one_note Examples.cfg [] [Examples.note "docs/a.txt" "hello"]).
  - repeat split.
  - apply IngestFacts.read_all_stamps.
  - apply IngestFacts.one_chunk_per_document.
  - apply IngestFacts.one_chunk_keeps_metadata.
  - reflexivity.
  - reflexivity.
  - reflexivity.
Defined.

(** *** An e-mail without an HTML part, end to end *)

(** X22. A path that ends in [.eml] goes to [MyElmLoader] with no
    keyword argument. When the e-mail library finds no HTML part in it
    and reads it with the content source text/plain alone, the first
    document of that second reading is what [load_single_document]
    returns. *)
Theorem eml_falls_back_to_plain_text (w : World) (base msg : string)
    (d : Document) (rest : list Document) :
  library_load w UnstructuredEmailLoader (base +:+ ".eml") []
  = Raise (Exn ValueError msg) →
  contains "text/html content not found in email" msg = true →
  library_load w UnstructuredEmailLoader (base +:+ ".eml")
    [("content_source", "text/plain")]
  = Return (d :: rest) →
  load_single_document w (base +:+ ".eml") = Return d.
Proof.
  intros Hfirst Hhtml Hsecond. unfold load_single_document.
  rewrite (registered_extension_of_suffix base ".eml" (MyElmLoader, []) eq_refl).
  change (dict_get LOADER_MAPPING ".eml") with (Some (MyElmLoader, [] : kwargs)).
  unfold load, MyElmLoader_load, plain_text_fallback. rewrite Hfirst.
  cbn [exn_cls exn_str is_ValueError]. rewrite Hhtml.
  change (set_kwarg "content_source" "text/plain" [])
    with [("content_source", "text/plain")].
  by rewrite Hsecond.
Qed.

Lemma eml_falls_back_to_plain_text_witness :
  load_single_document (Examples.world [] 3 plain_text_mail [])
    ("inbox/offer" +:+ ".eml")
  = Return (Examples.note "inbox/offer.eml" "plain text").
Proof.
  apply (eml_falls_back_to_plain_text (Examples.world [] 3 plain_text_mail [])
           "inbox/offer" "text/html content not found in email"
           (Examples.note "inbox/offer.eml" "plain text") []);
    reflexivity.
Defined.

End IngestMoreFacts.

(** ** More properties of the /verify route *)

Module ApprovalMoreFacts.
Import Documents ApprovalMore.

(** X10. A run of the route attempts nothing exactly when the id is not
    in the metadata store or the status asked for is neither the APPROVED
    nor the REJECTED value; the store is then left as it was and the
    answer is a 400 error. In every other case the record update is
    attempted. *)
Theorem nothing_attempted_iff_refused (env : Env) (checker_in : DocumentUpdate)
    (current_user now : nat) (store : Store) :
  let run := verify_documents env checker_in current_user now store in
  (trace_of run = []
   ↔ db store !! upd_id checker_in = None
     ∨ (upd_status checker_in ≠ status_value env APPROVED
        ∧ upd_status checker_in ≠ status_value env REJECTED))
  ∧ (trace_of run = [] →
     store_of run = store
     ∧ ∃ msg, answer run = HTTPError {| status_code := 400; detail := msg |}).
Proof.
  intros run. subst run.
  destruct (db store !! upd_id checker_in) as [doc|] eqn:Hdoc.
  - destruct (decide (upd_status checker_in = status_value env APPROVED))
      as [Ha|Hna].
    { rewrite (ApprovalFacts.verify_approved env checker_in current_user now
                 store doc Hdoc Ha).
      split; [|done]. split; [done|]. intros [[=]|[Hna _]]. done. }
    destruct (decide (upd_status checker_in = status_value env REJECTED))
      as [Hr|Hnr].
    + rewrite (ApprovalFacts.verify_rejected env checker_in current_user now
                 store doc Hdoc Hna Hr).
      case_decide; (split; [|done]); (split; [done|]);
        intros [[=]|[_ Hnr]]; done.
    + rewrite (ApprovalFacts.verify_other env checker_in current_user now
                 store doc Hdoc Hna Hnr).
      split; [split; [by right | done]|]. intros _. split; [done|]. by eexists.
  - rewrite (ApprovalFacts.verify_not_found env checker_in current_user now
               store Hdoc).
    split; [split; [by left | done]|]. intros _. split; [done|]. by eexists.
Qed.

(** A rejection that finds the quarantined file. *)
Lemma rejection_with_file (env : Env) (checker_in : DocumentUpdate)
    (current_user now : nat) (store : Store) (doc : DocumentRecord) :
  db store !! upd_id checker_in = Some doc →
  upd_status checker_in ≠ status_value env APPROVED →
  upd_status checker_in = status_value env REJECTED →
  quarantined env doc ∈ files store →
  let obj_in := decision REJECTED checker_in current_user now in
  verify_documents env checker_in current_user now store
  = (Ok NoContent,
     ({| db := alter (apply_update obj_in) (upd_id checker_in) (db store);
         files := files store ∖ {[quarantined env doc]} |},
      [EvUpdate (upd_id checker_in) obj_in; EvRemove (quarantined env doc)])).
Proof.
  intros Hdoc Hna Hr Hfile obj_in.
  rewrite (ApprovalFacts.verify_rejected env checker_in current_user now
             store doc Hdoc Hna Hr).
  by rewrite decide_True.
Qed.

(** X11. A rejection of a known document whose quarantined file exists
    succeeds with an empty answer, whatever the status of the document
    was: its record carries the decision, every other record is as
    before, and the quarantine directory has lost that file and no
    other. *)
Theorem rejection_removes_file (env : Env) (checker_in : DocumentUpdate)
    (current_user now : nat) (store : Store) (doc : DocumentRecord) :
  let id := upd_id checker_in in
  let run := verify_documents env checker_in current_user now store in
  db store !! id = Some doc →
  upd_status checker_in ≠ status_value env APPROVED →
  upd_status checker_in = status_value env REJECTED →
  quarantined env doc ∈ files store →
  answer run = Ok NoContent
  ∧ db (store_of run) !! id
    = Some (apply_update (decision REJECTED checker_in current_user now) doc)
  ∧ (∀ j, j ≠ id → db (store_of run) !! j = db store !! j)
  ∧ files (store_of run) = files store ∖ {[quarantined env doc]}.
Proof.
  intros id run Hdoc Hna Hr Hfile. unfold run.
  rewrite (rejection_with_file env checker_in current_user now store doc
             Hdoc Hna Hr Hfile).
  unfold answer, store_of. simpl.
  split; [done|]. split; [|split; [|done]].
  - fold id. by rewrite lookup_alter_eq, Hdoc.
  - intros j Hj. fold id. by rewrite lookup_alter_ne.
Qed.

Lemma rejection_removes_file_witness :
  let run :=
    verify_documents ApprovalExamples.env (request_for 7 "REJECTED") 5 200
      uploaded_twice in
  answer run = Ok NoContent
  ∧ db (store_of run) !! 7
    = Some (apply_update (decision REJECTED (request_for 7 "REJECTED") 5 200)
              (ApprovalExamples.report PENDING))
  ∧ (∀ j, j ≠ 7 → db (store_of run) !! j = db uploaded_twice !! j)
  ∧ files (store_of run)
    = files uploaded_twice ∖ {[ "unchecked/report.csv" ]}.
Proof.
  apply (rejection_removes_file ApprovalExamples.env
           (request_for 7 "REJECTED") 5 200 uploaded_twice
           (ApprovalExamples.report PENDING)).
  - reflexivity.
  - discriminate.
  - reflexivity.
  - vm_compute. reflexivity.
Defined.

(** X12. The quarantined file is found by file name alone. When two
    records have the same file name (or are the same record), a
    rejection of the second after a successful rejection of the first
    finds the file gone: it is answered with the 500 error, and the
    second record carries the rejection all the same. A rejection is a
    request that the route takes as one: its status is the REJECTED
    value and is not the APPROVED value, which the route tests first. *)
Theorem second_rejection_finds_file_gone (env : Env)
    (first second : DocumentUpdate) (user1 now1 user2 now2 : nat)
    (store : Store) (doc1 doc2 : DocumentRecord) :
  let run1 := verify_documents env first user1 now1 store in
  let run2 := verify_documents env second user2 now2 (store_of run1) in
  db store !! upd_id first = Some doc1 →
  db store !! upd_id second = Some doc2 →
  filename doc1 = filename doc2 →
  quarantined env doc1 ∈ files store →
  upd_status first ≠ status_value env APPROVED →
  upd_status first = status_value env REJECTED →
  upd_status second ≠ status_value env APPROVED →
  upd_status second = status_value env REJECTED →
  answer run1 = Ok NoContent
  ∧ answer run2
    = HTTPError {| status_code := 500;
                   detail := "Internal Server Error: Unable to upload file." |}
  ∧ status <$> db (store_of run2) !! upd_id second = Some REJECTED
  ∧ verified_by <$> db (store_of run2) !! upd_id second = Some (Some user2)
  ∧ files (store_of run2) = files store ∖ {[quarantined env doc1]}.
Proof.
  intros run1 run2 Hdoc1 Hdoc2 Hname Hfile Hna1 Hr1 Hna2 Hr2.
  pose proof (rejection_with_file env first user1 now1 store doc1
                Hdoc1 Hna1 Hr1 Hfile) as Hrun1.
  fold run1 in Hrun1. simpl in Hrun1.
  assert (answer run1 = Ok NoContent) as Hanswer by (by rewrite Hrun1).
  assert (db (store_of run1) !! upd_id first
          = Some (apply_update (decision REJECTED first user1 now1) doc1))
    as Hrec1.
  { rewrite Hrun1. unfold store_of. simpl. by rewrite lookup_alter_eq, Hdoc1. }
  assert (∀ j, j ≠ upd_id first → db (store_of run1) !! j = db store !! j)
    as Hothers.
  { intros j Hj. rewrite Hrun1. unfold store_of. simpl.
    by rewrite lookup_alter_ne. }
  assert (files (store_of run1) = files store ∖ {[quarantined env doc1]})
    as Hfiles by (by rewrite Hrun1).
  clear Hrun1. split; [done|].
  assert (∃ doc2', db (store_of run1) !! upd_id second = Some doc2'
                   ∧ filename doc2' = filename doc2) as (doc2' & Hdoc2' & Hname').
  { destruct (decide (upd_id second = upd_id first)) as [Heq|Hne].
    - rewrite Heq, Hrec1. eexists. split; [done|]. simpl. congruence.
    - rewrite (Hothers _ Hne). by exists doc2. }
  assert (quarantined env doc2' = quarantined env doc1) as Hpath
    by (unfold quarantined; congruence).
  unfold run2.
  rewrite (ApprovalFacts.verify_rejected env second user2 now2 (store_of run1)
             doc2' Hdoc2') by done.
  rewrite decide_False.
  2:{ rewrite Hpath, Hfiles. intros [_ Hnot]%elem_of_difference.
      by apply Hnot, elem_of_singleton. }
  unfold answer, store_of in *. cbn [fst snd recorded db files].
  rewrite lookup_alter_eq, Hdoc2'. by rewrite Hfiles.
Qed.

Lemma second_rejection_finds_file_gone_witness :
  let run1 :=
    verify_documents ApprovalExamples.env (request_for 7 "REJECTED") 5 200
      uploaded_twice in
  let run2 :=
    verify_documents ApprovalExamples.env (request_for 8 "REJECTED") 6 300
      (store_of run1) in
  answer run1 = Ok NoContent
  ∧ answer run2
    = HTTPError {| status_code := 500;
                   detail := "Internal Server Error: Unable to upload file." |}
  ∧ status <$> db (store_of run2) !! 8 = Some REJECTED
  ∧ verified_by <$> db (store_of run2) !! 8 = Some (Some 6)
  ∧ files (store_of run2)
    = files uploaded_twice ∖ {[ "unchecked/report.csv" ]}.
Proof.
  apply (second_rejection_finds_file_gone ApprovalExamples.env
           (request_for 7 "REJECTED") (request_for 8 "REJECTED") 5 200 6 300
           uploaded_twice (ApprovalExamples.report PENDING)
           (ApprovalExamples.report PENDING)).
  - reflexivity.
  - reflexivity.
  - reflexivity.
  - vm_compute. reflexivity.
  - discriminate.
  - reflexivity.
  - discriminate.
  - reflexivity.
Defined.

End ApprovalMoreFacts.


(** ** Properties of prompt_user *)

Module PromptFacts.
Import Prompt.

(** *** The calls of one pass *)

Lemma perform_calls m eff calls o calls' :
  perform m eff calls = (o, calls') → calls' = calls ++ [eff].
Proof. unfold perform. by intros [= _ <-]. Qed.

Lemma _create_directory_returns m name calls selected calls' :
  _create_directory m name calls = (Return selected, calls') →
  selected = pair_for name
  ∧ calls' = (calls ++ [Makedirs selected.1; Makedirs selected.2])
             ++ recorded_in_dotenv selected.
Proof.
  unfold _create_directory, and_then, perform, pure.
  repeat (destruct (raises m _ _); [done|]).
  intros [= <- <-]. split; [done|]. unfold recorded_in_dotenv. simpl.
  by rewrite <- !app_assoc.
Qed.

Lemma select_directory_returns m directories line calls selected calls' :
  select_directory m directories line calls = (Return (Some selected), calls') →
  ∃ d pre, selected = pair_for d
           ∧ calls' = pre ++ recorded_in_dotenv selected.
Proof.
  unfold select_directory, and_then, lift, pure.
  destruct (int_of m line) as [number| |]; [|done..].
  destruct (index directories (number - 1)) as [d| |]; [|done..].
  destruct (os_listdir m calls ("./sources/" +:+ d)) as [[|entry entries]| |];
    [done| |done..].
  destruct (os_exists m calls ("./dbs/" +:+ d)).
  - unfold perform. repeat (destruct (raises m _ _); [done|]).
    intros [= <- <-]. exists d, calls. split; [done|].
    unfold recorded_in_dotenv. simpl. by rewrite <- !app_assoc.
  - unfold perform. repeat (destruct (raises m _ _); [done|]).
    intros [= <- <-]. exists d, (calls ++ [Makedirs ("./dbs/" +:+ d)]).
    split; [done|]. unfold recorded_in_dotenv. simpl. by rewrite <- !app_assoc.
Qed.

(** *** What prompt_user returns *)

(** A pair that has been selected: it is the pair of some directory name,
    and the last two calls wrote it to [.env]. *)
Lemma session_returns m cfg at_read calls script selected calls' :
  (∀ waiting, at_read = AtEnter waiting →
     ∃ d pre, waiting = pair_for d
              ∧ calls = pre ++ recorded_in_dotenv waiting) →
  session m cfg at_read calls script = Some (Return selected, calls') →
  selected = (Ingest.source_directory cfg, Ingest.persist_directory cfg)
  ∨ ∃ d pre, selected = pair_for d
             ∧ calls' = pre ++ recorded_in_dotenv selected.
Proof.
  revert at_read calls.
  induction script as [|read script IH]; intros at_read calls Hat; [done|].
  destruct at_read as [|directories| |waiting]; simpl.
  - repeat case_decide.
    + unfold _display_directories.
      destruct (os_listdir m calls "./sources"); simpl; [|done..].
      by apply IH.
    + by apply IH.
    + intros [= <- <-]. by left.
    + done.
    + by apply IH.
  - destruct read as [line|]; [|by apply IH].
    destruct (select_directory m directories line calls)
      as [[[chosen|]|e|c] calls''] eqn:Hselect.
    + intros [= <- <-]. right. by eapply select_directory_returns.
    + by apply IH.
    + destruct (caught e); [by apply IH | done].
    + done.
  - destruct read as [name|]; [|by apply IH].
    destruct (_create_directory m name calls) as [[chosen|e|c] calls''] eqn:Hcreate;
      [|done..].
    apply IH. intros waiting [= <-].
    apply _create_directory_returns in Hcreate as [-> ->]. by eauto.
  - destruct read as [line|]; [|by apply IH].
    intros [= <- <-]. right. by apply Hat.
Qed.

(** X13. Whatever is typed, when [prompt_user] returns a pair it is
    either the current source and persist directories, or the pair
    [./sources/<d>], [./dbs/<d>] for one directory name [<d>], and then
    the last two calls made are the writes of that pair to [.env], source
    directory first. *)
Theorem prompt_user_returns (m : Machine) (cfg : Ingest.Config)
    (script : list (option string)) (selected : string * string)
    (calls : list Effect) :
  prompt_user m cfg script = Some (Return selected, calls) →
  selected = (Ingest.source_directory cfg, Ingest.persist_directory cfg)
  ∨ ∃ d pre, selected = pair_for d
             ∧ calls = pre ++ recorded_in_dotenv selected.
Proof. apply session_returns. by intros waiting [=]. Qed.

Lemma prompt_user_returns_witness :
  ("./sources/gamma", "./dbs/gamma") = ("docs", "db")
  ∨ ∃ d pre,
      ("./sources/gamma", "./dbs/gamma") = pair_for d
      ∧ [Makedirs "./sources/gamma"; Makedirs "./dbs/gamma";
         SetKey ".env" "SOURCE_DIRECTORY" "./sources/gamma";
         SetKey ".env" "PERSIST_DIRECTORY" "./dbs/gamma"]
        = pre ++ recorded_in_dotenv ("./sources/gamma", "./dbs/gamma").
Proof.
  apply (prompt_user_returns desk Examples.cfg
           [Some "2"; Some "gamma"; Some ""]).
  reflexivity.
Defined.

(** *** The menu *)

Lemma unknown_choice_skipped m cfg calls read script :
  unknown_choice m read →
  session m cfg AtMenu calls (read :: script) = session m cfg AtMenu calls script.
Proof.
  unfold unknown_choice. intros Hunknown. simpl.
  repeat case_decide; try done;
    exfalso; apply Hunknown;
    repeat (apply elem_of_cons; first [by left | right]).
Qed.

(** X14. Choices that the menu does not know are passed over without
    any call being made. After any number of them, five seconds without
    a line (or the choice 3) make [prompt_user] return the current
    source and persist directories, and the choice q ends the process
    with status 0. *)
Theorem unknown_choices_are_passed_over (m : Machine) (cfg : Ingest.Config)
    (reads : list (option string)) (read : option string)
    (rest : list (option string)) :
  Forall (unknown_choice m) reads →
  (_get_user_choice m read = "3" →
     prompt_user m cfg (reads ++ read :: rest)
     = Some (Return (Ingest.source_directory cfg, Ingest.persist_directory cfg),
             []))
  ∧ (_get_user_choice m read = "q" →
     prompt_user m cfg (reads ++ read :: rest) = Some (Exit 0, [])).
Proof.
  intros Hunknown. unfold prompt_user.
  induction Hunknown as [|first reads Hfirst _ IH].
  - simpl. split; intros ->; by repeat case_decide.
  - simpl app. by rewrite (unknown_choice_skipped m cfg [] first _ Hfirst).
Qed.

Lemma unknown_choices_are_passed_over_witness :
  prompt_user desk Examples.cfg [Some "7"; Some "yes"; None; Some "1"]
  = Some (Return ("docs", "db"), [])
  ∧ prompt_user desk Examples.cfg [Some "7"; Some " q "]
    = Some (Exit 0, []).
Proof.
  split.
  - apply (unknown_choices_are_passed_over desk Examples.cfg
             [Some "7"; Some "yes"] None [Some "1"]).
    + repeat constructor; vm_compute;
        intros H; repeat (apply elem_of_cons in H as [H|H]; [discriminate H|]);
        by apply elem_of_nil in H.
    + reflexivity.
  - apply (unknown_choices_are_passed_over desk Examples.cfg
             [Some "7"] (Some " q ") []).
    + repeat constructor; vm_compute;
        intros H; repeat (apply elem_of_cons in H as [H|H]; [discriminate H|]);
        by apply elem_of_nil in H.
    + reflexivity.
Defined.

(** *** The number typed for choice 1 *)

Lemma index_from_end {A} (l : list A) (n : Z) :
  (- Z.of_nat (length l) < n ≤ 0)%Z →
  index l (n - 1) = index l (n + Z.of_nat (length l) - 1).
Proof.
  intros Hn. unfold index.
  destruct (Z.ltb_spec (n - 1) 0); [|lia].
  destruct (Z.ltb_spec (n + Z.of_nat (length l) - 1) 0); [lia|].
  by replace (n - 1 + Z.of_nat (length l))%Z
    with (n + Z.of_nat (length l) - 1)%Z by lia.
Qed.

Lemma index_out_of_range {A} (l : list A) (n : Z) :
  (n ≤ - Z.of_nat (length l) ∨ Z.of_nat (length l) < n)%Z →
  index l (n - 1) = Raise (Exn IndexError "list index out of range").
Proof.
  intros Hn. unfold index.
  destruct (Z.ltb_spec (n - 1) 0).
  - destruct (Z.leb_spec 0 (n - 1 + Z.of_nat (length l))); [lia|done].
  - destruct (Z.leb_spec 0 (n - 1)); [|lia].
    destruct (Z.ltb_spec (n - 1) (Z.of_nat (length l))); [lia|done].
Qed.

(** X15. The number typed for choice 1 is used as a Python index less
    one. A number from [-(len-1)] to [0] counts from the end of the list
    shown: it selects what the number plus [len] selects, so [0] selects
    the last directory. A number above [len] or not above [-len] is
    refused with the IndexError that the loop catches, and no call is
    made. *)
Theorem directory_number_counts_from_end (m : Machine)
    (directories : list string) (line : string) (n : Z)
    (calls : list Effect) :
  int m line = Some n →
  let len := Z.of_nat (length directories) in
  (∀ line', int m line' = Some (n + len)%Z → (- len < n ≤ 0)%Z →
     select_directory m directories line calls
     = select_directory m directories line' calls)
  ∧ ((n ≤ - len ∨ len < n)%Z →
     select_directory m directories line calls
     = (Raise (Exn IndexError "list index out of range"), calls)
     ∧ caught (Exn IndexError "list index out of range") = true).
Proof.
  intros Hline len. split.
  - intros line' Hline' Hn.
    unfold select_directory, and_then, lift, int_of.
    by rewrite Hline, Hline', (index_from_end directories n Hn).
  - intros Hn. split; [|done].
    unfold select_directory, and_then, lift, int_of.
    by rewrite Hline, (index_out_of_range directories n Hn).
Qed.

Lemma directory_number_counts_from_end_witness :
  select_directory desk ["Alpha"; "beta"; "empty"] "-1" []
  = select_directory desk ["Alpha"; "beta"; "empty"] "2" []
  ∧ select_directory desk ["Alpha"; "beta"; "empty"] "4" []
    = (Raise (Exn IndexError "list index out of range"), []).
Proof.
  destruct (directory_number_counts_from_end desk ["Alpha"; "beta"; "empty"]
              "-1" (-1) []) as [Hwrap _]; [reflexivity|].
  destruct (directory_number_counts_from_end desk ["Alpha"; "beta"; "empty"]
              "4" 4 []) as [_ Hout]; [reflexivity|].
  split.
  - apply Hwrap; [reflexivity|]. simpl. lia.
  - apply Hout. simpl. lia.
Defined.

(** *** The list shown for choice 1 *)

Section Sorting.
Context (key : string → string).

(** [a] may stand before [b]: the key of [b] is not below the key of
    [a]. *)
Let in_order (a b : string) : Prop := String.ltb (key b) (key a) = false.

Lemma ltb_asymmetric (s t : string) :
  String.ltb s t = true → String.ltb t s = false.
Proof.
  unfold String.ltb. rewrite (String.compare_antisym s t).
  by destruct (String.compare t s).
Qed.

Lemma insert_by_Permutation x l : insert_by key x l ≡ₚ x :: l.
Proof.
  induction l as [|y l IH]; simpl; [done|].
  destruct (String.ltb (key y) (key x)); [|done].
  rewrite IH. apply Permutation_swap.
Qed.

Lemma insert_by_HdRel y x l :
  in_order y x → HdRel in_order y l → HdRel in_order y (insert_by key x l).
Proof.
  intros Hyx Hl. destruct l as [|z l]; simpl; [by constructor|].
  destruct (String.ltb (key z) (key x)); constructor; [|done].
  by inversion Hl.
Qed.

Lemma insert_by_Sorted x l :
  Sorted in_order l → Sorted in_order (insert_by key x l).
Proof.
  induction 1 as [|y l Hl IH Hy]; simpl; [by repeat constructor|].
  destruct (String.ltb (key y) (key x)) eqn:Hlt.
  - constructor; [done|]. apply insert_by_HdRel; [|done].
    by apply ltb_asymmetric.
  - constructor; [by constructor|]. by constructor.
Qed.

Lemma sorted_Permutation l : sorted key l ≡ₚ l.
Proof.
  induction l as [|x l IH]; simpl; [done|].
  by rewrite insert_by_Permutation, IH.
Qed.

Lemma sorted_Sorted l : Sorted in_order (sorted key l).
Proof.
  induction l as [|x l IH]; simpl; [constructor|]. by apply insert_by_Sorted.
Qed.
End Sorting.

(** X16. The list that [_display_directories] returns holds the entries
    of [./sources] that are directories and do not start with a dot,
    each as often as [os.listdir] gave it and no other entry, in an
    order in which no name is followed by one whose lower-cased name is
    smaller. No call that changes the machine is made. *)
Theorem _display_directories_sorted (m : Machine) (calls calls' : list Effect)
    (directories : list string) :
  _display_directories m calls = (Return directories, calls') →
  calls' = calls
  ∧ (∃ files,
       os_listdir m calls "./sources" = Return files
       ∧ directories ≡ₚ filter (λ file, listed m calls file = true) files)
  ∧ Sorted (λ a b, String.ltb (lower m b) (lower m a) = false) directories
  ∧ ∀ d, d ∈ directories →
      os_isdir m calls (Ingest.path_join "./sources" d) = true
      ∧ String.prefix "." d = false.
Proof.
  unfold _display_directories.
  destruct (os_listdir m calls "./sources") as [files| |] eqn:Hfiles;
    simpl; [|done..].
  intros [= <- <-]. split; [done|]. split; [|split].
  - exists files. split; [done|]. apply sorted_Permutation.
  - apply sorted_Sorted.
  - intros d. rewrite sorted_Permutation.
    intros [Hlisted _]%list_elem_of_filter. unfold listed in Hlisted.
    apply andb_true_iff in Hlisted as [Hdir Hvisible].
    split; [done|]. by apply negb_true_iff.
Qed.

Lemma _display_directories_sorted_witness :
  (∃ files,
     os_listdir desk [] "./sources" = Return files
     ∧ ["Alpha"; "beta"; "empty"]
       ≡ₚ filter (λ file, listed desk [] file = true) files)
  ∧ Sorted (λ a b, String.ltb (lower desk b) (lower desk a) = false)
      ["Alpha"; "beta"; "empty"].
Proof.
  destruct (_display_directories_sorted desk [] [] ["Alpha"; "beta"; "empty"])
    as (_ & Hfiles & Hsorted & _); [reflexivity|].
  split; [exact Hfiles | exact Hsorted].
Defined.

(** *** Choice 2 *)

(** X17. When [os.makedirs] raises for the new source directory or for
    the new database directory (a name that exists already, for one),
    [prompt_user] ends with that exception: [.env] is not written, and
    for a failure on the source directory the database directory is not
    tried. *)
Theorem new_directory_failure (m : Machine) (cfg : Ingest.Config)
    (read : option string) (name : string) (rest : list (option string))
    (e : exn) :
  _get_user_choice m read = "2" →
  let source := Makedirs ("./sources/" +:+ name) in
  let database := Makedirs ("./dbs/" +:+ name) in
  (raises m [] source = Some e →
     prompt_user m cfg (read :: Some name :: rest) = Some (Raise e, [source]))
  ∧ (raises m [] source = None → raises m [source] database = Some e →
     prompt_user m cfg (read :: Some name :: rest)
     = Some (Raise e, [source; database])).
Proof.
  intros Hchoice source database. unfold prompt_user. simpl.
  rewrite Hchoice. simpl.
  unfold _create_directory, and_then, perform. simpl.
  fold source. fold database. split.
  - by intros ->.
  - by intros -> ->.
Qed.

Lemma new_directory_failure_witness :
  prompt_user desk Examples.cfg [Some "2"; Some "beta"; Some ""]
  = Some (Raise (Exn (OtherError "FileExistsError") "./sources/beta"),
          [Makedirs "./sources/beta"])
  ∧ prompt_user desk Examples.cfg [Some "2"; Some "Alpha"; Some ""]
    = Some (Raise (Exn (OtherError "FileExistsError") "./sources/Alpha"),
            [Makedirs "./sources/Alpha"]).
Proof.
  split.
  - apply (new_directory_failure desk Examples.cfg (Some "2") "beta" [Some ""]);
      reflexivity.
  - apply (new_directory_failure desk Examples.cfg (Some "2") "Alpha" [Some ""]);
      reflexivity.
Defined.

End PromptFacts.


(** ** Properties of the /update, /department_update and /upload routes *)

Module RoutesFacts.
Import Documents Routes.

(** *** update_document *)



(** *** update_department *)

Lemma ints_Ok sv l ns :
  ints sv l = Ok ns ↔ Forall2 (λ number n, int sv number = Some n) l ns.
Proof.
  revert ns. induction l as [|number l IH]; intros ns; simpl.
  - split; [intros [= <-]; constructor | by inversion 1].
  - destruct (int sv number) as [n|] eqn:Hn.
    + destruct (ints sv l) as [ns'|e|e].
      * split.
        -- intros [= <-]. constructor; [done|]. by apply IH.
        -- inversion 1 as [|? n' ? ns'' Hn' Hrest]; subst.
           apply IH in Hrest. congruence.
      * split; [done|]. inversion 1 as [|? n' ? ns'' Hn' Hrest]; subst.
        by apply IH in Hrest.
      * split; [done|]. inversion 1 as [|? n' ? ns'' Hn' Hrest]; subst.
        by apply IH in Hrest.
    + split; [done|]. inversion 1; congruence.
Qed.

Lemma ints_unreadable sv l number :
  number ∈ l → int sv number = None → ∃ e, ints sv l = Error e.
Proof.
  intros Hin Hnone. induction l as [|first l IH]; [by apply elem_of_nil in Hin|].
  simpl. destruct (int sv first) as [n|] eqn:Hfirst; [|by eexists].
  apply elem_of_cons in Hin as [->|Hin]; [congruence|].
  destruct (IH Hin) as [e ->]. by eexists.
Qed.

Lemma inserts_calls sv id department_ids store calls store' calls' :
  for_each (λ department_id,
              call (CallInsert id department_id)
                (db_execute_insert sv id department_id))
    department_ids (store, calls)
  = (Ok tt, (store', calls')) →
  calls' = calls ++ (CallInsert id <$> department_ids).
Proof.
  revert store calls.
  induction department_ids as [|n ns IH]; intros store calls; simpl.
  - intros [= _ <-]. by rewrite app_nil_r.
  - unfold Routes.bind at 1, call at 1. simpl.
    destruct (db_execute_insert sv id n store) as [[[]|e|e] store1]; [|done..].
    intros Hrest%IH. by rewrite Hrest, <- app_assoc.
Qed.

Lemma update_department_run sv document_in current_user store :
  update_department sv document_in current_user store
  = match get_by_filename sv store (dep_filename document_in) with
    | None => (HTTPError internal_server_error, (store, []))
    | Some (id, document) =>
        match ints sv (dep_departments document_in) with
        | Ok department_ids =>
            match for_each
                    (λ department_id,
                       call (CallInsert id department_id)
                         (db_execute_insert sv id department_id))
                    department_ids (store, []) with
            | (Ok _, (store1, calls1)) =>
                match log_audit sv current_user store1 with
                | (Ok _, store2) =>
                    (Ok document, (store2, calls1 ++ [CallAudit current_user]))
                | (_, store2) =>
                    (HTTPError internal_server_error,
                     (store2, calls1 ++ [CallAudit current_user]))
                end
            | (_, left_at) => (HTTPError internal_server_error, left_at)
            end
        | _ => (HTTPError internal_server_error, (store, []))
        end
    end.
Proof.
  unfold update_department, update_department_try. cbn [fst snd].
  destruct (get_by_filename sv store (dep_filename document_in))
    as [[id document]|]; [|done].
  unfold Routes.bind at 1, raise.
  destruct (ints sv (dep_departments document_in)) as [ids|e|e]; [|done..].
  unfold Routes.bind at 1.
  destruct (for_each _ ids (store, [])) as [[[]|e|e] [store1 calls1]];
    [|done..].
  unfold Routes.bind, call, Routes.ret. cbn [fst snd].
  by destruct (log_audit sv current_user store1) as [[[]|e|e] store2].
Qed.

(** X19. The /department_update route answers with the document found
    or with the 500 error "Internal Server Error." and with nothing
    else. A file name that is not known, or one department number that
    [int] does not read, gives that error with the store untouched and
    no row inserted: all numbers are read before the first insert. An
    answer with the document comes after one insert for each department
    number, in the order given, and then one audit entry. *)
Theorem update_department_answers (sv : Services)
    (document_in : DocumentDepartmentUpdate) (current_user : nat)
    (store : Store) :
  let run := update_department sv document_in current_user store in
  (∀ e, run.1 = HTTPError e → e = internal_server_error)
  ∧ (get_by_filename sv store (dep_filename document_in) = None
     ∨ (∃ number, number ∈ dep_departments document_in
                  ∧ int sv number = None) →
     run = (HTTPError internal_server_error, (store, [])))
  ∧ (∀ document, run.1 = Ok document →
       ∃ id department_ids,
         get_by_filename sv store (dep_filename document_in)
         = Some (id, document)
         ∧ Forall2 (λ number n, int sv number = Some n)
             (dep_departments document_in) department_ids
         ∧ run.2.2 = (CallInsert id <$> department_ids)
                     ++ [CallAudit current_user]).
Proof.
  intros run. subst run. rewrite update_department_run.
  destruct (get_by_filename sv store (dep_filename document_in))
    as [[id document]|];
    [|split; [by intros e [= <-]|]; split; [done|done]].
  destruct (ints sv (dep_departments document_in)) as [ids|e|e] eqn:Hids;
    [|split; [by intros e' [= <-]|]; split; [done|done]..].
  assert (¬ (Some (id, document) = None
             ∨ ∃ number, number ∈ dep_departments document_in
                         ∧ int sv number = None)) as Hreadable.
  { intros [[=]|(number & Hin & Hnone)].
    destruct (ints_unreadable sv _ number Hin Hnone). congruence. }
  destruct (for_each _ ids (store, [])) as [[[]|e|e] [store1 calls1]] eqn:Hins;
    [|split; [by intros e' [= <-]|]; split; [done|done]..].
  apply inserts_calls in Hins as ->.
  destruct (log_audit sv current_user store1) as [[[]|e|e] store2];
    [|split; [by intros e' [= <-]|]; split; [done|done]..].
  split; [done|]. split; [done|].
  intros document' [=]. subst document'. exists id, ids.
  split; [done|]. split; [by apply ints_Ok | done].
Qed.

Lemma update_department_answers_witness :
  update_department office
    {| dep_filename := "report.csv"; dep_departments := ["1"; "two"; "3"] |} 5
    ApprovalExamples.uploaded
  = (HTTPError internal_server_error, (ApprovalExamples.uploaded, []))
  ∧ update_department office
      {| dep_filename := "minutes.pdf"; dep_departments := ["1"] |} 5
      ApprovalExamples.uploaded
    = (HTTPError internal_server_error, (ApprovalExamples.uploaded, [])).
Proof.
  split.
  - apply (update_department_answers office
             {| dep_filename := "report.csv";
                dep_departments := ["1"; "two"; "3"] |} 5
             ApprovalExamples.uploaded).
    right. exists "two". split; [|reflexivity]. right. left.
  - apply (update_department_answers office
             {| dep_filename := "minutes.pdf"; dep_departments := ["1"] |} 5
             ApprovalExamples.uploaded).
    left. reflexivity.
Defined.

(** *** upload_documents *)

Lemma upload_documents_staged env sv name current_user store :
  write_raises sv (upload_path env name) store = None →
  let staged :=
    {| db := db store; files := files store ∪ {[upload_path env name]} |} in
  upload_documents env sv (Some name) current_user store
  = (except_upload (create_documents sv name current_user staged).1,
     ((create_documents sv name current_user staged).2,
      [CallStage (upload_path env name); CallCreate name])).
Proof.
  intros Hwrite staged.
  unfold upload_documents, upload_documents_try, Routes.bind, stage, call.
  cbn [fst snd]. rewrite Hwrite. cbn [fst snd app]. fold staged.
  by destruct (create_documents sv name current_user staged) as [r store'].
Qed.

(** X20. The /upload route writes the file to the quarantine directory
    before it asks for the record, and does not take it back: without a
    file name it answers 400 and does nothing; when the write fails it
    answers 500 "Unable to ingest file." and no record is asked for; when
    the write succeeds the record is asked for next, and whatever comes
    of that (an error too), the file is in the quarantine directory
    afterwards, provided [create_documents] leaves that directory
    alone. *)
Theorem upload_stages_before_it_records (env : Env) (sv : Services)
    (filename : option string) (current_user : nat) (store : Store) :
  let run := upload_documents env sv filename current_user store in
  (filename = None →
     run = (HTTPError {| status_code := 400; detail := "No file name provided" |},
            (store, [])))
  ∧ (∀ name remaining,
       filename = Some name →
       write_raises sv (upload_path env name) store = Some remaining →
       run = (HTTPError
                {| status_code := 500;
                   detail := "Internal Server Error: Unable to ingest file." |},
              ({| db := db store; files := remaining |},
               [CallStage (upload_path env name)])))
  ∧ (∀ name,
       filename = Some name →
       write_raises sv (upload_path env name) store = None →
       run.2.2 = [CallStage (upload_path env name); CallCreate name]
       ∧ (create_keeps_files sv → upload_path env name ∈ files run.2.1)).
Proof.
  intros run. subst run. split; [by intros ->|]. split.
  - intros name remaining -> Hwrite.
    unfold upload_documents, upload_documents_try, Routes.bind, stage.
    cbn [fst snd]. by rewrite Hwrite.
  - intros name -> Hwrite.
    rewrite (upload_documents_staged env sv name current_user store Hwrite).
    split; [done|]. intros Hkeeps. cbn [fst snd].
    rewrite Hkeeps. simpl. apply elem_of_union. right.
    by apply elem_of_singleton.
Qed.

Lemma upload_stages_before_it_records_witness :
  let run :=
    upload_documents ApprovalExamples.env office_down (Some "report.csv") 5
      nothing_uploaded in
  run.1
  = HTTPError {| status_code := 500;
                 detail := "Internal Server Error: Unable to upload file." |}
  ∧ run.2.2 = [CallStage "unchecked/report.csv"; CallCreate "report.csv"]
  ∧ "unchecked/report.csv" ∈ files run.2.1.
Proof.
  intros run. split; [reflexivity|].
  destruct (upload_stages_before_it_records ApprovalExamples.env office_down
              (Some "report.csv") 5 nothing_uploaded) as (_ & _ & Hstaged).
  destruct (Hstaged "report.csv") as [Hcalls Hfile]; [reflexivity..|].
  split; [exact Hcalls|]. apply Hfile. by intros name user store.
Defined.

(** X21. The path [/upload] writes to is the path [/verify] looks at for
    a record of that file name. After an upload whose write succeeded,
    a REJECTED request for any record of the store that has the uploaded
    file name succeeds: the file is deleted from the quarantine
    directory and the record carries the rejection ([create_documents]
    leaving the quarantine directory alone). *)
Theorem uploaded_file_is_the_quarantined_file (env : Env) (sv : Services)
    (name : string) (uploader : nat) (store : Store)
    (checker_in : DocumentUpdate) (checker now : nat) (doc : DocumentRecord) :
  let uploaded := (upload_documents env sv (Some name) uploader store).2.1 in
  let run := verify_documents env checker_in checker now uploaded in
  create_keeps_files sv →
  write_raises sv (upload_path env name) store = None →
  db uploaded !! upd_id checker_in = Some doc →
  filename doc = name →
  upd_status checker_in ≠ status_value env APPROVED →
  upd_status checker_in = status_value env REJECTED →
  answer run = Ok NoContent
  ∧ (upload_path env name ∉ files (store_of run))
  ∧ db (store_of run) !! upd_id checker_in
    = Some (apply_update (decision REJECTED checker_in checker now) doc).
Proof.
  intros uploaded run Hkeeps Hwrite Hdoc Hname Hna Hr.
  assert (quarantined env doc ∈ files uploaded) as Hfile.
  { unfold quarantined. rewrite Hname. unfold uploaded.
    rewrite (upload_documents_staged env sv name uploader store Hwrite).
    cbn [fst snd]. rewrite Hkeeps. simpl. apply elem_of_union. right.
    by apply elem_of_singleton. }
  unfold run.
  rewrite (ApprovalMoreFacts.rejection_with_file env checker_in checker now
             uploaded doc Hdoc Hna Hr Hfile).
  unfold answer, store_of. simpl. split; [done|]. split.
  - intros [_ Hnot]%elem_of_difference. apply Hnot, elem_of_singleton.
    unfold quarantined, upload_path. by rewrite Hname.
  - by rewrite lookup_alter_eq, Hdoc.
Qed.

Lemma uploaded_file_is_the_quarantined_file_witness :
  let uploaded :=
    (upload_documents ApprovalExamples.env office (Some "report.csv") 5
       nothing_uploaded).2.1 in
  let run :=
    verify_documents ApprovalExamples.env
      (ApprovalMore.request_for 9 "REJECTED") 6 300 uploaded in
  answer run = Ok NoContent
  ∧ ("unchecked/report.csv" ∉ files (store_of run))
  ∧ db (store_of run) !! 9
    = Some (apply_update
              (decision REJECTED (ApprovalMore.request_for 9 "REJECTED") 6 300)
              (ApprovalExamples.report PENDING)).
Proof.
  apply (uploaded_file_is_the_quarantined_file ApprovalExamples.env office
           "report.csv" 5 nothing_uploaded
           (ApprovalMore.request_for 9 "REJECTED") 6 300
           (ApprovalExamples.report PENDING)).
  - by intros name user store.
  - reflexivity.
  - reflexivity.
  - reflexivity.
  - discriminate.
  - reflexivity.
Defined.

End RoutesFacts.
